(** * image-compressor: the compression search and the crop geometry

    A shallow embedding of the two algorithmic parts of the repository:

    - [Compressor]: [compressImage] and [handleCompress] of the
      ImageCompressor component (the target-size quality search and the
      batch loop around it);
    - [Rescale], [Loader]: the start of [compressImage], from the load of
      the image to the sizing of the canvas the search encodes;
    - [Cropper]: the crop rectangle state machine and [handleCrop] of
      [src/components/ImageCropper.tsx];
    - [Cropper2]: [handleCrop] of the second cropper source, which carries
      its own rotation arithmetic;
    - [CropperDraw]: the handle squares painted by [drawCanvas];
    - [BackgroundRemover]: [resizeImageIfNeeded] and the alpha mask loop
      of [removeBackground];
    - [Gallery]: [handleFileUpload] and [handleCropComplete] on the list
      of images.

    Numbers.  The quality search is run on IEEE-754 binary64 values
    ([PrimFloat]), which is what a JavaScript [number] is: every arithmetic
    step and comparison of [tryCompress] is the one the engine performs.
    The geometry is stated for all coordinates, so it is modelled over the
    rationals [Q] (exact arithmetic, no NaN, no infinities); [Math.round]
    is [floor (v + 1/2)]. *)

From Stdlib Require Import List Bool Arith Lia ZArith.
From Stdlib Require Import QArith Qminmax Qround Lqa.
From Stdlib Require Import PrimFloat.
From Stdlib Require Ascii String.
Import ListNotations.

Set Warnings "-inexact-float".

(* ================================================================= *)
(** ** The compression search *)

Module Compressor.

Local Open Scope float_scope.

(** [settings.format]. *)
Inductive Format := jpeg | png | webp.

(** [CompressionSettings].  [targetSize] is in KB.  The component's
    initial settings leave [targetSize] unset; in the three places the
    search reads it ([sizeKB - targetKB], [targetKB * 0.1],
    [sizeKB > targetKB]) an unset field behaves as [nan]. *)
Record CompressionSettings := {
  targetSize : float;
  format : Format;
  quality : float
}.

(** A [Blob] handed to the [toBlob] callback.  [blob_size] is [blob.size]
    in bytes.  [blob_id] is the object's identity: the ordinal (from 1) of
    the [canvas.toBlob] call that created it, so two blobs of equal size
    made by different calls stay distinct objects. *)
Record Blob := {
  blob_id : nat;
  blob_size : float
}.

(** The encoder behind [canvas.toBlob(callback, `image/${format}`, quality)]
    for one canvas: the size of the encoded data, or [None] when the
    callback receives [null]. *)
Definition Encoder := Format -> float -> option float.

(** The variables [tryCompress] closes over. *)
Record SearchState := {
  minQuality : float;
  maxQuality : float;
  bestBlob : option Blob;
  attempts : nat
}.

Definition maxAttempts : nat := 10.

(** What one invocation of the [toBlob] callback does with a non-null
    blob: settle the promise, or update the closure and call
    [tryCompress] again. *)
Inductive Step :=
| Resolve (blob : Blob)
| Retry (st : SearchState) (next : float).

Definition sizeKB (blob : Blob) : float := blob_size blob / 1024.

(** [Math.abs(sizeKB - targetKB) <= targetKB * 0.1]. *)
Definition closeEnough (settings : CompressionSettings) (blob : Blob) : bool :=
  abs (sizeKB blob - targetSize settings) <=? targetSize settings * 0.1.

Definition callback (settings : CompressionSettings) (st : SearchState)
    (q : float) (blob : Blob) : Step :=
  if closeEnough settings blob || (maxAttempts <=? attempts st)%nat then
    Resolve blob
  else
    if targetSize settings <? sizeKB blob then
      Retry {| minQuality := minQuality st;
               maxQuality := q;
               bestBlob := bestBlob st;
               attempts := S (attempts st) |}
            ((minQuality st + q) / 2)
    else
      Retry {| minQuality := q;
               maxQuality := maxQuality st;
               bestBlob := Some blob;
               attempts := S (attempts st) |}
            ((q + maxQuality st) / 2).

(** The promise returned by [compressImage].  The executor only ever
    receives [resolve]; [Rejected] is what the [catch] of [handleCompress]
    waits for, [Pending] is a promise that is never settled. *)
Inductive Promise :=
| Resolved (blob : Blob)
| Rejected
| Pending.

(** The outcome of a search: the promise, the closure variables at the
    end, and the qualities passed to [canvas.toBlob], latest first. *)
Record Run := {
  promise : Promise;
  final : SearchState;
  encodes : list float
}.

(** [tryCompress].  The recursion of the source goes through the [toBlob]
    callback; [fuel] bounds its depth, and [None] means the bound was too
    small (see [tryCompress_fuel] below: [S maxAttempts] always suffices). *)
Fixpoint tryCompress (toBlob : Encoder) (settings : CompressionSettings)
    (fuel : nat) (st : SearchState) (calls : list float) (q : float)
    : option Run :=
  match fuel with
  | O => None
  | S fuel' =>
      let calls' := q :: calls in
      match toBlob (format settings) q with
      | None =>
          (* if (!blob) return; *)
          Some {| promise := Pending; final := st; encodes := calls' |}
      | Some size =>
          let blob := {| blob_id := length calls'; blob_size := size |} in
          match callback settings st q blob with
          | Resolve b =>
              Some {| promise := Resolved b; final := st; encodes := calls' |}
          | Retry st' q' =>
              tryCompress toBlob settings fuel' st' calls' q'
          end
      end
  end.

Definition initialSearch : SearchState :=
  {| minQuality := 0.1; maxQuality := 1.0; bestBlob := None; attempts := 0 |}.

(** The quality search of [compressImage] on the (rescaled) canvas whose
    encoder is [toBlob]: [tryCompress(settings.quality)], that is
    [compressImage] from the end of [img.onload] on.  The load of the image
    and the sizing of the canvas that precede it are in
    [Loader.compressImage]. *)
Definition compressImage (toBlob : Encoder) (settings : CompressionSettings)
    : option Run :=
  tryCompress toBlob settings (S maxAttempts) initialSearch [] (quality settings).

(** An entry of [imageFiles]: the file (by name) and the encoder of the
    canvas its image is drawn on. *)
Record ImageFile := {
  fileName : nat;
  canvasEncoder : Encoder;
  compressedBlob : option Blob
}.

(** How a call of [handleCompress] ends: the toast for an empty list, the
    final [setImageFiles(compressedFiles)], or an [await] that never
    returns, with the [compressedFiles] pushed so far and the files the
    loop has not reached. *)
Inductive Batch :=
| NoImages
| Complete (compressedFiles : list ImageFile)
| Suspended (compressedFiles : list ImageFile) (notReached : list ImageFile)
| Diverged.

(** The [for] loop of [handleCompress]. *)
Fixpoint compressLoop (settings : CompressionSettings)
    (imageFiles : list ImageFile) (compressedFiles : list ImageFile) : Batch :=
  match imageFiles with
  | [] => Complete compressedFiles
  | imageFile :: rest =>
      match compressImage (canvasEncoder imageFile) settings with
      | None => Diverged
      | Some r =>
          match promise r with
          | Resolved blob =>
              compressLoop settings rest
                (compressedFiles ++
                 [{| fileName := fileName imageFile;
                     canvasEncoder := canvasEncoder imageFile;
                     compressedBlob := Some blob |}])
          | Rejected =>
              (* catch (error): toast, next iteration *)
              compressLoop settings rest compressedFiles
          | Pending => Suspended compressedFiles rest
          end
      end
  end.

Definition handleCompress (settings : CompressionSettings)
    (imageFiles : list ImageFile) : Batch :=
  match imageFiles with
  | [] => NoImages
  | _ => compressLoop settings imageFiles []
  end.

End Compressor.

(* ================================================================= *)
(** ** The size of the canvas [compressImage] encodes *)

Module Rescale.

Local Open Scope Q_scope.

Definition maxDimension : Q := 1920.

(** [a > b] on numbers. *)
Definition gt (a b : Q) : bool := negb (Qle_bool a b).

(** The first lines of [img.onload] in [compressImage]: the local
    [width] and [height], as numbers, that are assigned to the canvas and
    passed to [drawImage] for an image of size [(imgWidth, imgHeight)].
    The canvas keeps their integer parts: see [Loader.canvasOf]. *)
Definition canvasSize (imgWidth imgHeight : Q) : Q * Q :=
  let width := imgWidth in
  let height := imgHeight in
  if gt width maxDimension || gt height maxDimension then
    if gt width height then
      (maxDimension, (height * maxDimension) / width)
    else
      ((width * maxDimension) / height, maxDimension)
  else (width, height).

End Rescale.

(* ================================================================= *)
(** ** The crop rectangle of ImageCropper.tsx *)

Module Cropper.

Local Open Scope Q_scope.

Record CropArea := {
  x : Q;
  y : Q;
  width : Q;
  height : Q
}.

(** ['nw' | 'ne' | 'sw' | 'se' | 'n' | 's' | 'e' | 'w']; the [null] of the
    source's [ResizeHandle] is the [None] of [option ResizeHandle]. *)
Inductive ResizeHandle :=
| Hnw | Hne | Hsw | Hse | Hn | Hs | He | Hw.

(** A pointer position in canvas coordinates (the value of [getMousePos]). *)
Record Point := { px : Q; py : Q }.

(** The component state the handlers read and write, with the sizes of
    the canvas and of the loaded image. *)
Record State := {
  isDragging : bool;
  isResizing : bool;
  resizeHandle : option ResizeHandle;
  dragStart : Point;
  cropArea : CropArea;
  isTouch : bool;
  rotation : Z;
  canvasWidth : Q;
  canvasHeight : Q;
  imgWidth : Q;
  imgHeight : Q
}.

Definition leb (a b : Q) : bool := Qle_bool a b.
Definition geb (a b : Q) : bool := Qle_bool b a.

Definition getHandleSize (touch : bool) : Q := if touch then 24 else 12.

(** [Math.round]. *)
Definition round (v : Q) : Q := inject_Z (Qfloor (v + (1 # 2))).

(** [Math.min(200, canvas.width * 0.5, canvas.height * 0.5)] and the
    centred square of that side: the rectangle set by [img.onload] and by
    [resetCrop]. *)
Definition initialSize (cw ch : Q) : Q :=
  Qmin 200 (Qmin (cw * (1 # 2)) (ch * (1 # 2))).

Definition initialCrop (cw ch : Q) : CropArea :=
  {| x := (cw - initialSize cw ch) / 2;
     y := (ch - initialSize cw ch) / 2;
     width := initialSize cw ch;
     height := initialSize cw ch |}.

(** The state when the dialog opens, before the image has loaded. *)
Definition initialState : State :=
  {| isDragging := false; isResizing := false; resizeHandle := None;
     dragStart := {| px := 0; py := 0 |};
     cropArea := {| x := 50; y := 50; width := 200; height := 200 |};
     isTouch := false; rotation := 0%Z;
     canvasWidth := 0; canvasHeight := 0; imgWidth := 0; imgHeight := 0 |}.

(** [img.onload]: the canvas takes the image scaled into 600 x 400 (never
    enlarged) and the crop rectangle is set to the initial one.  The sides
    of the canvas are kept as the exact products [w * scale], [h * scale];
    the source rounds the products on binary64 and the canvas stores their
    integer parts.  What is proved from [onload] below either starts from
    an image for which the products are whole and exact (1200 x 800,
    300 x 300, 300 x 200, 60 x 60) or is conditioned on the size of the
    canvas. *)
Definition onload (st : State) (w h : Q) : State :=
  let maxWidth := 600 in
  let maxHeight := 400 in
  let scale := Qmin (maxWidth / w) (Qmin (maxHeight / h) 1) in
  let cw := w * scale in
  let ch := h * scale in
  {| isDragging := isDragging st; isResizing := isResizing st;
     resizeHandle := resizeHandle st; dragStart := dragStart st;
     cropArea := initialCrop cw ch;
     isTouch := isTouch st; rotation := rotation st;
     canvasWidth := cw; canvasHeight := ch; imgWidth := w; imgHeight := h |}.

Definition setCropArea (st : State) (a : CropArea) : State :=
  {| isDragging := isDragging st; isResizing := isResizing st;
     resizeHandle := resizeHandle st; dragStart := dragStart st;
     cropArea := a;
     isTouch := isTouch st; rotation := rotation st;
     canvasWidth := canvasWidth st; canvasHeight := canvasHeight st;
     imgWidth := imgWidth st; imgHeight := imgHeight st |}.

Definition setDragStart (st : State) (p : Point) : State :=
  {| isDragging := isDragging st; isResizing := isResizing st;
     resizeHandle := resizeHandle st; dragStart := p;
     cropArea := cropArea st;
     isTouch := isTouch st; rotation := rotation st;
     canvasWidth := canvasWidth st; canvasHeight := canvasHeight st;
     imgWidth := imgWidth st; imgHeight := imgHeight st |}.

Definition setMode (st : State) (dragging resizing : bool)
    (handle : option ResizeHandle) : State :=
  {| isDragging := dragging; isResizing := resizing;
     resizeHandle := handle; dragStart := dragStart st;
     cropArea := cropArea st;
     isTouch := isTouch st; rotation := rotation st;
     canvasWidth := canvasWidth st; canvasHeight := canvasHeight st;
     imgWidth := imgWidth st; imgHeight := imgHeight st |}.

Definition setIsTouch (st : State) (t : bool) : State :=
  {| isDragging := isDragging st; isResizing := isResizing st;
     resizeHandle := resizeHandle st; dragStart := dragStart st;
     cropArea := cropArea st;
     isTouch := t; rotation := rotation st;
     canvasWidth := canvasWidth st; canvasHeight := canvasHeight st;
     imgWidth := imgWidth st; imgHeight := imgHeight st |}.

Definition setRotation (st : State) (r : Z) : State :=
  {| isDragging := isDragging st; isResizing := isResizing st;
     resizeHandle := resizeHandle st; dragStart := dragStart st;
     cropArea := cropArea st;
     isTouch := isTouch st; rotation := r;
     canvasWidth := canvasWidth st; canvasHeight := canvasHeight st;
     imgWidth := imgWidth st; imgHeight := imgHeight st |}.

(** [getResizeHandle]: the corner boxes are tried before the edge strips. *)
Definition getResizeHandle (st : State) (mx my : Q) : option ResizeHandle :=
  let handleSize := getHandleSize (isTouch st) in
  let cx := x (cropArea st) in
  let cy := y (cropArea st) in
  let width := width (cropArea st) in
  let height := height (cropArea st) in
  if geb mx (cx - handleSize) && leb mx (cx + handleSize)
     && geb my (cy - handleSize) && leb my (cy + handleSize) then Some Hnw
  else if geb mx (cx + width - handleSize) && leb mx (cx + width + handleSize)
     && geb my (cy - handleSize) && leb my (cy + handleSize) then Some Hne
  else if geb mx (cx - handleSize) && leb mx (cx + handleSize)
     && geb my (cy + height - handleSize) && leb my (cy + height + handleSize)
  then Some Hsw
  else if geb mx (cx + width - handleSize) && leb mx (cx + width + handleSize)
     && geb my (cy + height - handleSize) && leb my (cy + height + handleSize)
  then Some Hse
  else if geb mx (cx + handleSize) && leb mx (cx + width - handleSize)
     && geb my (cy - handleSize) && leb my (cy + handleSize) then Some Hn
  else if geb mx (cx + handleSize) && leb mx (cx + width - handleSize)
     && geb my (cy + height - handleSize) && leb my (cy + height + handleSize)
  then Some Hs
  else if geb mx (cx + width - handleSize) && leb mx (cx + width + handleSize)
     && geb my (cy + handleSize) && leb my (cy + height - handleSize)
  then Some He
  else if geb mx (cx - handleSize) && leb mx (cx + handleSize)
     && geb my (cy + handleSize) && leb my (cy + height - handleSize)
  then Some Hw
  else None.

Definition handleMouseDown (st : State) (pos : Point) : State :=
  let st' :=
    match getResizeHandle st (px pos) (py pos) with
    | Some handle => setMode st (isDragging st) true (Some handle)
    | None =>
        if geb (px pos) (x (cropArea st))
           && leb (px pos) (x (cropArea st) + width (cropArea st))
           && geb (py pos) (y (cropArea st))
           && leb (py pos) (y (cropArea st) + height (cropArea st))
        then setMode st true (isResizing st) (resizeHandle st)
        else st
    end in
  setDragStart st' pos.

(** The updater passed to [setCropArea] while resizing. *)
Definition resize (handle : ResizeHandle) (deltaX deltaY cw ch : Q)
    (prev : CropArea) : CropArea :=
  let nx := Qmax 0 (Qmin (x prev + deltaX) (x prev + width prev - 50)) in
  let ny := Qmax 0 (Qmin (y prev + deltaY) (y prev + height prev - 50)) in
  let wWest := Qmax 50 (width prev - deltaX) in
  let hNorth := Qmax 50 (height prev - deltaY) in
  let wEast := Qmax 50 (Qmin (width prev + deltaX) (cw - x prev)) in
  let hSouth := Qmax 50 (Qmin (height prev + deltaY) (ch - y prev)) in
  match handle with
  | Hnw => {| x := nx; y := ny; width := wWest; height := hNorth |}
  | Hne => {| x := x prev; y := ny; width := wEast; height := hNorth |}
  | Hsw => {| x := nx; y := y prev; width := wWest; height := hSouth |}
  | Hse => {| x := x prev; y := y prev; width := wEast; height := hSouth |}
  | Hn => {| x := x prev; y := ny; width := width prev; height := hNorth |}
  | Hs => {| x := x prev; y := y prev; width := width prev; height := hSouth |}
  | He => {| x := x prev; y := y prev; width := wEast; height := height prev |}
  | Hw => {| x := nx; y := y prev; width := wWest; height := height prev |}
  end.

(** The updater passed to [setCropArea] while dragging. *)
Definition drag (deltaX deltaY cw ch : Q) (prev : CropArea) : CropArea :=
  {| x := Qmax 0 (Qmin (x prev + deltaX) (cw - width prev));
     y := Qmax 0 (Qmin (y prev + deltaY) (ch - height prev));
     width := width prev;
     height := height prev |}.

Definition handleMouseMove (st : State) (pos : Point) : State :=
  let deltaX := px pos - px (dragStart st) in
  let deltaY := py pos - py (dragStart st) in
  let st' :=
    match isResizing st, resizeHandle st with
    | true, Some handle =>
        setCropArea st
          (resize handle deltaX deltaY (canvasWidth st) (canvasHeight st)
                  (cropArea st))
    | _, _ =>
        if isDragging st then
          setCropArea st
            (drag deltaX deltaY (canvasWidth st) (canvasHeight st)
                  (cropArea st))
        else st
    end in
  setDragStart st' pos.

Definition handleMouseUp (st : State) : State := setMode st false false None.

Definition resetCrop (st : State) : State :=
  setCropArea st (initialCrop (canvasWidth st) (canvasHeight st)).

(** The handlers wired to the canvas and to the dialog's buttons.  A
    touch event carries its [touches]; the touch handlers run the mouse
    handler on the first one, inside the render that is current, so
    [handleTouchStart] hit-tests with the [isTouch] it found. *)
Inductive Event :=
| MouseDown (pos : Point)
| MouseMove (pos : Point)
| MouseUp
| MouseLeave
| TouchStart (touches : list Point)
| TouchMove (touches : list Point)
| TouchEnd
| TouchCancel
| RotateLeft
| RotateRight
| Reset.

Definition handle (st : State) (ev : Event) : State :=
  match ev with
  | MouseDown pos => handleMouseDown st pos
  | MouseMove pos => handleMouseMove st pos
  | MouseUp | MouseLeave | TouchEnd | TouchCancel => handleMouseUp st
  | TouchStart touches =>
      setIsTouch (match touches with
                  | touch :: _ => handleMouseDown st touch
                  | [] => st
                  end) true
  | TouchMove touches =>
      match touches with
      | touch :: _ => handleMouseMove st touch
      | [] => st
      end
  | RotateLeft => setRotation st (Z.rem (rotation st - 90 + 360) 360)
  | RotateRight => setRotation st (Z.rem (rotation st + 90) 360)
  | Reset => resetCrop st
  end.

Definition run (st : State) (evs : list Event) : State :=
  fold_left handle evs st.

(** What [handleCrop] computes: the source rectangle read by [drawImage]
    from the image and the size of the temporary canvas it is drawn on. *)
Record Extraction := {
  sx : Q;
  sy : Q;
  sWidth : Q;
  sHeight : Q;
  outWidth : Q;
  outHeight : Q
}.

Definition handleCrop (st : State) : Extraction :=
  let scaleX := imgWidth st / canvasWidth st in
  let scaleY := imgHeight st / canvasHeight st in
  let cropX := round (x (cropArea st) * scaleX) in
  let cropY := round (y (cropArea st) * scaleY) in
  let cropWidth := round (width (cropArea st) * scaleX) in
  let cropHeight := round (height (cropArea st) * scaleY) in
  let '(sx0, sy0) :=
    if negb (Z.rem (rotation st) 180 =? 0)%Z then
      if (rotation st =? 90)%Z then
        (cropY, imgWidth st - cropX - cropWidth)
      else if (rotation st =? 270)%Z then
        (imgHeight st - cropY - cropHeight, cropX)
      else (cropX, cropY)
    else (cropX, cropY) in
  {| sx := sx0; sy := sy0; sWidth := cropWidth; sHeight := cropHeight;
     outWidth := cropWidth; outHeight := cropHeight |}.

End Cropper.

(* ================================================================= *)
(** ** [handleCrop] of the second cropper *)

Module Cropper2.

Import Cropper.
Local Open Scope Q_scope.

(** The second source has the state and the pointer handlers of
    [Cropper] and its own [handleCrop]: the source rectangle is computed
    by a [switch] on the rotation, the temporary canvas is [sw] x [sh], and
    at 90 and 270 degrees [drawImage] reads [sh] x [sw] from the image.
    For a rotation outside the four cases the second [switch] draws
    nothing, hence the [option].  [canvasWidth] and [canvasHeight] are
    what the canvas has when the crop is applied (this source's
    [drawCanvas] gives it the size of the image, exchanged at 90 and 270
    degrees). *)
Definition handleCrop (st : State) : option Extraction :=
  let scaleX := imgWidth st / canvasWidth st in
  let scaleY := imgHeight st / canvasHeight st in
  let x := x (cropArea st) in
  let y := y (cropArea st) in
  let width := width (cropArea st) in
  let height := height (cropArea st) in
  let r := rotation st in
  if (r =? 0)%Z then
    let sw := round (width * scaleX) in
    let sh := round (height * scaleY) in
    Some {| sx := round (x * scaleX); sy := round (y * scaleY);
            sWidth := sw; sHeight := sh; outWidth := sw; outHeight := sh |}
  else if (r =? 90)%Z then
    let sw := round (height * scaleY) in
    let sh := round (width * scaleX) in
    Some {| sx := round (y * scaleY);
            sy := round (imgWidth st - (x + width) * scaleX);
            sWidth := sh; sHeight := sw; outWidth := sw; outHeight := sh |}
  else if (r =? 180)%Z then
    let sw := round (width * scaleX) in
    let sh := round (height * scaleY) in
    Some {| sx := round (imgWidth st - (x + width) * scaleX);
            sy := round (imgHeight st - (y + height) * scaleY);
            sWidth := sw; sHeight := sh; outWidth := sw; outHeight := sh |}
  else if (r =? 270)%Z then
    let sw := round (height * scaleY) in
    let sh := round (width * scaleX) in
    Some {| sx := round (imgHeight st - (y + height) * scaleY);
            sy := round (x * scaleX);
            sWidth := sh; sHeight := sw; outWidth := sw; outHeight := sh |}
  else None.

End Cropper2.

(* ================================================================= *)
(** ** Inputs and invariants used below *)

Module SearchInputs.

Import Compressor.
Local Open Scope float_scope.

(** Target 100 KB, JPEG, initial quality 0.8. *)
Definition target100 : CompressionSettings :=
  {| targetSize := 100; format := jpeg; quality := 0.8 |}.

(** The same with the lossless format, for which the encoder ignores the
    quality. *)
Definition target100png : CompressionSettings :=
  {| targetSize := 100; format := png; quality := 0.8 |}.

(** A canvas whose encoding is 5000 KB at every quality. *)
Definition oversize : Encoder := fun _ _ => Some 5120000.

(** A canvas whose encoding is 1 KB at every quality. *)
Definition undersize : Encoder := fun _ _ => Some 1024.

(** A canvas the encoder produces no data for. *)
Definition noData : Encoder := fun _ _ => None.

(** 250 KB at quality 0.8, 90 KB at quality 0.45, no data elsewhere. *)
Definition scenario : Encoder :=
  fun _ q =>
    if q =? 0.8 then Some 256000
    else if q =? 0.45 then Some 92160
    else None.

Definition first : ImageFile :=
  {| fileName := 1; canvasEncoder := noData; compressedBlob := None |}.

Definition second : ImageFile :=
  {| fileName := 2; canvasEncoder := scenario; compressedBlob := None |}.

End SearchInputs.

Module CropInputs.

Import Cropper.
Local Open Scope Q_scope.

(** The dialog once a 1200 x 800 image has loaded: the canvas is
    600 x 400 and the crop rectangle is the 200 x 200 square at (200, 100). *)
Definition loaded : State := onload initialState 1200 800.

(** The dialog once a 60 x 60 image has loaded: the canvas is 60 x 60. *)
Definition loadedSmall : State := onload initialState 60 60.

(** The loaded dialog with crop rectangle [a] and rotation [r]. *)
Definition committed (a : CropArea) (r : Z) : State :=
  setRotation (setCropArea loaded a) r.

(** The rectangle of the specification's scenarios. *)
Definition square200 : CropArea :=
  {| x := 50; y := 50; width := 200; height := 200 |}.

(** The loaded dialog after pressing the mouse inside the rectangle, and
    a pointer position far outside the canvas. *)
Definition dragging : State :=
  run loaded [MouseDown {| px := 300; py := 200 |}].

Definition far : Point := {| px := 900; py := 0 - 100 |}.

(** The dialog once a 300 x 200 image has loaded: the canvas has the
    size of the image. *)
Definition loadedNative : State := onload initialState 300 200.

(** The dialog once a 300 x 300 image has loaded (the canvas is
    300 x 300 as well), turned to 90 degrees, with a crop rectangle whose
    left edge and width fall on half pixels. *)
Definition halves : CropArea :=
  {| x := 101 # 2; y := 50; width := 201 # 2; height := 100 |}.

Definition turned : State :=
  setRotation (setCropArea (onload initialState 300 300) halves) 90.

End CropInputs.

Module Invariants.

Import Compressor Cropper.
Local Open Scope Q_scope.

(** What holds between the closure variables and the list of encoder
    calls whenever [tryCompress] is entered from [compressImage]. *)
Definition consistent (st : SearchState) (calls : list float) : Prop :=
  (length calls = attempts st /\
   attempts st <= maxAttempts /\
   forall bb, bestBlob st = Some bb -> blob_id bb <= length calls)%nat.

(** [MIN_SIZE] on both sides. *)
Definition sized (a : CropArea) : Prop := 50 <= width a /\ 50 <= height a.

(** The rectangle lies in [0, cw] x [0, ch]. *)
Definition inside (cw ch : Q) (a : CropArea) : Prop :=
  0 <= x a /\ 0 <= y a /\ x a + width a <= cw /\ y a + height a <= ch.

End Invariants.

(* ================================================================= *)
(** ** The qualities the search can reach, and the entries a batch pushes *)

Module SearchRange.

Import Compressor.
Local Open Scope float_scope.

(** The values of the "Initial Quality" slider ([min="0.1" max="1"
    step="0.1"], read with [parseFloat]); 0.8 is also the initial
    setting. *)
Definition sliderQualities : list float :=
  [0.1; 0.2; 0.3; 0.4; 0.5; 0.6; 0.7; 0.8; 0.9; 1.0].

(** [0.1 <= q <= 1]. *)
Definition inRange (q : float) : bool := (0.1 <=? q) && (q <=? 1).

(** [0.1 <= lo <= q <= hi <= 1]. *)
Definition inBracket (lo hi q : float) : bool :=
  (0.1 <=? lo) && (lo <=? q) && (q <=? hi) && (hi <=? 1).

(** The two retries of [Compressor.callback] depend on the blob only
    through the branch taken, so the qualities a search can try from
    [(minQuality, maxQuality, quality) = (lo, hi, q)] form a binary tree.
    [bracketTree n lo hi q] checks [inBracket] at every node of that tree
    down to depth [n]. *)
Fixpoint bracketTree (n : nat) (lo hi q : float) : bool :=
  inBracket lo hi q && inRange q &&
  match n with
  | O => true
  | S n' =>
      bracketTree n' lo q ((lo + q) / 2) &&
      bracketTree n' q hi ((q + hi) / 2)
  end.

(** The files of a batch and the entries pushed for them, one for one. *)
Definition pushedFor (settings : CompressionSettings)
    (imageFile compressed : ImageFile) : Prop :=
  fileName compressed = fileName imageFile /\
  canvasEncoder compressed = canvasEncoder imageFile /\
  exists r b,
    compressImage (canvasEncoder imageFile) settings = Some r /\
    promise r = Resolved b /\
    compressedBlob compressed = Some b.

End SearchRange.

(* ================================================================= *)
(** ** The handles [drawCanvas] paints *)

Module CropperDraw.

Import Cropper.
Local Open Scope Q_scope.


(** The handles that move the west edge, and those that move the north
    edge. *)
Definition movesWest (handle : ResizeHandle) : bool :=
  match handle with Hnw | Hsw | Hw => true | _ => false end.

Definition movesNorth (handle : ResizeHandle) : bool :=
  match handle with Hnw | Hne | Hn => true | _ => false end.

Definition movesEast (handle : ResizeHandle) : bool :=
  match handle with Hne | Hse | He => true | _ => false end.

Definition movesSouth (handle : ResizeHandle) : bool :=
  match handle with Hsw | Hse | Hs => true | _ => false end.

(** The rotations the two buttons produce. *)
Definition quarterTurn (r : Z) : Prop :=
  (r = 0 \/ r = 90 \/ r = 180 \/ r = 270)%Z.

(** The events that move the pointer. *)
Definition isMove (ev : Event) : bool :=
  match ev with MouseMove _ | TouchMove _ => true | _ => false end.

End CropperDraw.

(* ================================================================= *)
(** ** The background remover: canvas size and alpha mask *)

Module BackgroundRemover.

Import Cropper.
Local Open Scope Q_scope.

Definition MAX_IMAGE_DIMENSION : Q := 1024.

(** [resizeImageIfNeeded]: whether the image was resized, and the width
    and height given to the canvas. *)
Definition resizeImageIfNeeded (naturalWidth naturalHeight : Q)
    : bool * (Q * Q) :=
  let width := naturalWidth in
  let height := naturalHeight in
  if Rescale.gt width MAX_IMAGE_DIMENSION
     || Rescale.gt height MAX_IMAGE_DIMENSION then
    if Rescale.gt width height then
      (true, (MAX_IMAGE_DIMENSION,
              round ((height * MAX_IMAGE_DIMENSION) / width)))
    else
      (true, (round ((width * MAX_IMAGE_DIMENSION) / height),
              MAX_IMAGE_DIMENSION))
  else (false, (width, height)).

(** A write [data[i] = v] into a [Uint8ClampedArray]: outside the array it
    is ignored, inside it stores the integer [v] clamped to 0..255. *)
Definition clampByte (v : Z) : Z := Z.max 0 (Z.min 255 v).

Fixpoint store (data : list Z) (i : nat) (v : Z) : list Z :=
  match data, i with
  | [], _ => []
  | _ :: rest, O => clampByte v :: rest
  | b :: rest, S i' => b :: store rest i' v
  end.

(** [Math.round((1 - value) * 255)]. *)
Definition alphaOf (value : Q) : Z := Qfloor ((1 - value) * 255 + (1 # 2)).

(** The loop of [removeBackground] over [result[0].mask.data], from index
    [i] on: [data[i * 4 + 3] = alpha]. *)
Fixpoint applyMaskFrom (i : nat) (mask : list Q) (data : list Z) : list Z :=
  match mask with
  | [] => data
  | value :: rest =>
      applyMaskFrom (S i) rest (store data (i * 4 + 3) (alphaOf value))
  end.

Definition applyMask (mask : list Q) (data : list Z) : list Z :=
  applyMaskFrom 0 mask data.

End BackgroundRemover.

(* ================================================================= *)
(** ** The list of images of the compressor *)

Module Gallery.

Import Stdlib.Strings.Ascii Stdlib.Strings.String.
Local Open Scope string_scope.

(** A [File]: its name, MIME type and size in bytes. *)
Record File := {
  name : string;
  type : string;
  size : Z
}.

(** A [Blob] as the cropper hands it over. *)
Record Blob := {
  blobType : string;
  blobSize : Z
}.

(** The result of [URL.createObjectURL], by the object it designates. *)
Inductive ObjectURL :=
| UrlOfFile (f : File)
| UrlOfBlob (b : Blob).

(** [ImageFile], with [None] for an absent optional field. *)
Record ImageFile := {
  file : File;
  preview : ObjectURL;
  originalSize : Z;
  compressedSize : option Z;
  compressedBlob : option Blob;
  fileName : option string
}.

(** [s.split('.')[0]]: what precedes the first dot. *)
Fixpoint beforeDot (s : string) : string :=
  match s with
  | EmptyString => EmptyString
  | String c rest =>
      if Ascii.eqb c "."%char then EmptyString else String c (beforeDot rest)
  end.

(** Whether a string contains a dot, and what a string holds from its
    first dot on. *)
Fixpoint hasDot (s : string) : bool :=
  match s with
  | EmptyString => false
  | String c rest => Ascii.eqb c "."%char || hasDot rest
  end.

Fixpoint fromDot (s : string) : string :=
  match s with
  | EmptyString => EmptyString
  | String c rest => if Ascii.eqb c "."%char then s else fromDot rest
  end.

Definition isImage (f : File) : bool := prefix "image/" (type f).

(** The entry [handleFileUpload] pushes for an image file. *)
Definition uploaded (f : File) : ImageFile :=
  {| file := f;
     preview := UrlOfFile f;
     originalSize := size f;
     compressedSize := None;
     compressedBlob := None;
     fileName := Some ("compressed_" ++ beforeDot (name f)) |}.

(** [handleFileUpload]: [files] is [None] for [null]; the [forEach] pushes
    onto [newFiles], which is then appended to the list. *)
Definition handleFileUpload (files : option (list File))
    (prev : list ImageFile) : list ImageFile :=
  match files with
  | None => prev
  | Some fileList =>
      let newFiles :=
        fold_left
          (fun newFiles f =>
             if isImage f then (newFiles ++ [uploaded f])%list else newFiles)
          fileList [] in
      (prev ++ newFiles)%list
  end.

(** The part of the component state [handleCropComplete] works on. *)
Record State := {
  imageFiles : list ImageFile;
  selectedImageIndex : option nat
}.

(** [handleCropImage]. *)
Definition handleCropImage (st : State) (index : nat) : State :=
  {| imageFiles := imageFiles st; selectedImageIndex := Some index |}.

(** [prev.map((file, index) => index === selected ? replacement file : file)]. *)
Fixpoint mapAt (index : nat) (selected : nat)
    (replacement : ImageFile -> ImageFile) (prev : list ImageFile)
    : list ImageFile :=
  match prev with
  | [] => []
  | f :: rest =>
      (if Nat.eqb index selected then replacement f else f)
      :: mapAt (S index) selected replacement rest
  end.

(** [handleCropComplete].  [None] is the [TypeError] of
    [imageFiles[selectedImageIndex].file] on an index that has no entry. *)
Definition handleCropComplete (st : State) (croppedBlob : Blob)
    : option State :=
  match selectedImageIndex st with
  | None => Some st
  | Some selected =>
      match nth_error (imageFiles st) selected with
      | None => None
      | Some current =>
          let croppedFile :=
            {| name := "cropped_" ++ name (file current);
               type := blobType croppedBlob;
               size := blobSize croppedBlob |} in
          let replacement (f : ImageFile) :=
            {| file := croppedFile;
               preview := UrlOfBlob croppedBlob;
               originalSize := blobSize croppedBlob;
               compressedSize := None;
               compressedBlob := None;
               fileName := fileName f |} in
          Some {| imageFiles := mapAt 0 selected replacement (imageFiles st);
                  selectedImageIndex := None |}
      end
  end.

End Gallery.

(* ================================================================= *)
(** ** [compressImage] from the image load to the promise *)

Module Loader.

Import Compressor.

(** [canvas.width = v]: the attribute is an unsigned long, so the number
    is truncated to its integer part ([v] is never negative here). *)
Definition canvasSide (v : Q) : Z := Qfloor v.

(** The size of the canvas after [canvas.width = width] and
    [canvas.height = height] in [img.onload], for an image of [w] x [h]
    pixels.  [Rescale.canvasSize] gives the two numbers assigned; the
    source takes the quotient of lines 87 and 90 on binary64, and for
    whole [w], [h] below 2^31 the integer part of that quotient is the
    integer part of the exact one (the product is exact, and a quotient
    that is not whole stays at least [1 / w] below the next integer). *)
Definition canvasOf (w h : Z) : Z * Z :=
  (canvasSide (fst (Rescale.canvasSize (inject_Z w) (inject_Z h))),
   canvasSide (snd (Rescale.canvasSize (inject_Z w) (inject_Z h)))).

(** What [compressImage] gets from [imageFile.preview]: the size
    [img.width] x [img.height] with which [img.onload] fires, or [None]
    when the image does not decode and [onload] never fires (there is no
    [onerror]); and, for each canvas size, the encoder of the canvas of
    that size once the image has been drawn on it. *)
Record Picture := {
  decoded : option (Z * Z);
  toBlobAt : Z * Z -> Encoder
}.

(** [compressImage], the whole of it: the promise stays pending with no
    encoder call when [onload] never fires; otherwise the canvas is sized
    and the search of [Compressor.compressImage] runs on it.  ([final] is
    the initial closure when the search never starts.) *)
Definition compressImage (picture : Picture) (settings : CompressionSettings)
    : option Run :=
  match decoded picture with
  | None =>
      Some {| promise := Pending; final := initialSearch; encodes := [] |}
  | Some (w, h) =>
      Compressor.compressImage (toBlobAt picture (canvasOf w h)) settings
  end.

End Loader.

(* ================================================================= *)
(** * Properties of the compression search *)

Section SearchFacts.

Import Compressor Invariants.
Local Open Scope nat_scope.

Variable toBlob : Encoder.
Variable settings : CompressionSettings.

(** The callback retries only below the attempt budget, counts the retry,
    and only on a blob that is not close enough. *)
Lemma callback_Retry st q blob st' q' :
  callback settings st q blob = Retry st' q' ->
  attempts st < maxAttempts /\
  attempts st' = S (attempts st) /\
  closeEnough settings blob = false /\
  (forall bb, bestBlob st' = Some bb -> bestBlob st = Some bb \/ bb = blob).
Proof.
  unfold callback.
  destruct (closeEnough settings blob) eqn:Hclose; cbn [orb];
    [intros H; discriminate H|].
  destruct (maxAttempts <=? attempts st) eqn:Hmax; [intros H; discriminate H|].
  apply Nat.leb_gt in Hmax.
  destruct (PrimFloat.ltb (targetSize settings) (sizeKB blob));
    intros H; inversion H; subst; clear H; cbn [attempts bestBlob];
    (repeat split; [assumption | ]).
  - intros bb Hbb; left; exact Hbb.
  - intros bb Hbb; right; congruence.
Qed.

(** The callback resolves with the blob it was given, and does so only
    when that blob is close enough or the budget is used up. *)
Lemma callback_Resolve st q blob b :
  callback settings st q blob = Resolve b ->
  b = blob /\
  (closeEnough settings blob = false -> maxAttempts <= attempts st).
Proof.
  unfold callback.
  destruct (closeEnough settings blob) eqn:Hclose; cbn [orb].
  - intros H; inversion H; split; [reflexivity | intros H'; discriminate H'].
  - destruct (maxAttempts <=? attempts st) eqn:Hmax.
    + apply Nat.leb_le in Hmax.
      intros H; inversion H; split; [reflexivity | intros _; exact Hmax].
    + destruct (PrimFloat.ltb (targetSize settings) (sizeKB blob));
        intros H; discriminate H.
Qed.

Lemma consistent_initial : consistent initialSearch [].
Proof.
  unfold consistent, initialSearch, maxAttempts; simpl.
  repeat split; [lia | discriminate].
Qed.

(** Enough fuel: [tryCompress] returns as soon as the fuel exceeds the
    attempts that are left. *)
Lemma tryCompress_fuel fuel :
  forall st calls q,
    maxAttempts - attempts st < fuel ->
    exists r, tryCompress toBlob settings fuel st calls q = Some r.
Proof.
  induction fuel as [|fuel IH]; intros st calls q Hfuel; [lia|].
  simpl.
  destruct (toBlob (format settings) q) as [size|]; [|eexists; reflexivity].
  destruct (callback settings st q _) as [b|st' q'] eqn:Hcb;
    [eexists; reflexivity|].
  apply callback_Retry in Hcb as (Hlt & Hatt & _).
  apply IH. lia.
Qed.

(** The shape of every finished run. *)
Lemma tryCompress_run fuel :
  forall st calls q r,
    consistent st calls ->
    tryCompress toBlob settings fuel st calls q = Some r ->
    length (encodes r) = S (attempts (final r)) /\
    attempts (final r) <= maxAttempts /\
    (forall bb, bestBlob (final r) = Some bb ->
                blob_id bb < length (encodes r)) /\
    match promise r with
    | Resolved b =>
        blob_id b = length (encodes r) /\
        (exists q', hd_error (encodes r) = Some q' /\
                    toBlob (format settings) q' = Some (blob_size b)) /\
        (closeEnough settings b = false -> attempts (final r) = maxAttempts)
    | Pending =>
        exists q', hd_error (encodes r) = Some q' /\
                   toBlob (format settings) q' = None
    | Rejected => False
    end.
Proof.
  induction fuel as [|fuel IH]; intros st calls q r Hc Hrun; [discriminate|].
  simpl in Hrun.
  destruct Hc as (Hlen & Hle & Hbest).
  destruct (toBlob (format settings) q) as [size|] eqn:Henc.
  - destruct (callback settings st q _) as [b|st' q'] eqn:Hcb.
    + inversion Hrun; subst r; clear Hrun; simpl.
      apply callback_Resolve in Hcb as (-> & Hex); simpl in *.
      repeat split; try lia.
      * intros bb Hbb. apply Hbest in Hbb. lia.
      * exists q; split; [reflexivity | exact Henc].
      * intros Hclose. specialize (Hex Hclose). lia.
    + apply callback_Retry in Hcb as (Hlt & Hatt & _ & Hbb').
      apply (IH st' (q :: calls) q' r); [|exact Hrun].
      repeat split; simpl; try lia.
      intros bb Hbb. destruct (Hbb' bb Hbb) as [Hold | ->].
      * apply Hbest in Hold. lia.
      * simpl. lia.
  - inversion Hrun; subst r; clear Hrun; simpl.
    repeat split; try lia.
    + intros bb Hbb. apply Hbest in Hbb. lia.
    + exists q; split; [reflexivity | exact Henc].
Qed.

(** [compressImage] always comes back: the promise it returns is resolved
    or left pending after at most eleven encoder calls. *)
Lemma compressImage_returns :
  exists r, compressImage toBlob settings = Some r /\
            length (encodes r) <= S maxAttempts /\
            promise r <> Rejected.
Proof.
  destruct (tryCompress_fuel (S maxAttempts) initialSearch [] (quality settings))
    as [r Hr]; [unfold initialSearch; cbn [attempts]; lia|].
  exists r. split; [exact Hr|].
  pose proof (tryCompress_run _ _ _ _ _ consistent_initial Hr)
    as (Hlen & Hle & _ & Hp).
  split; [lia|].
  destruct (promise r); [discriminate | contradiction | discriminate].
Qed.

End SearchFacts.

Section SearchClaims.

Import Compressor SearchInputs Invariants.
Local Open Scope nat_scope.

(** C1 (the code departs from it).  The claim: the search calls the
    encoder at most [maxAttempts] = 10 times and resolves with a blob.
    On a canvas whose PNG encoding is 5000 KB whatever the quality the
    code calls the encoder eleven times before it resolves: the budget is tested
    before [attempts] is incremented, so the first call is not counted.
    And when the encoder produces no data the promise is left pending. *)
Theorem compressImage_eleven_encodes :
  (exists r,
      compressImage oversize target100png = Some r /\
      length (encodes r) = 11 /\
      attempts (final r) = maxAttempts /\
      promise r = Resolved {| blob_id := 11; blob_size := 5120000%float |}) /\
  (exists r,
      compressImage noData target100 = Some r /\
      length (encodes r) = 1 /\
      promise r = Pending).
Proof.
  split; eexists; (split; [vm_compute; reflexivity|]);
    repeat split; reflexivity.
Qed.

(** C2.  One iteration of the search, for a blob the encoder produced:
    within the tolerance the promise is resolved with that blob; outside
    it and below the attempt budget, a blob larger than the target moves
    [maxQuality] to the current quality and retries at
    [(minQuality + quality) / 2], any other blob moves [minQuality] to the
    current quality, is stored in [bestBlob], and the retry is at
    [(quality + maxQuality) / 2].  With target 100 KB and 250 KB at
    quality 0.8 the retry is at 0.45, and 90 KB there resolves the
    promise with that second blob. *)
Theorem tryCompress_iteration :
  (forall settings st q blob,
      (closeEnough settings blob = true ->
       callback settings st q blob = Resolve blob) /\
      (closeEnough settings blob = false ->
       attempts st < maxAttempts ->
       (PrimFloat.ltb (targetSize settings) (sizeKB blob) = true ->
        callback settings st q blob =
          Retry {| minQuality := minQuality st;
                   maxQuality := q;
                   bestBlob := bestBlob st;
                   attempts := S (attempts st) |}
                (PrimFloat.div (PrimFloat.add (minQuality st) q) 2%float)) /\
       (PrimFloat.ltb (targetSize settings) (sizeKB blob) = false ->
        callback settings st q blob =
          Retry {| minQuality := q;
                   maxQuality := maxQuality st;
                   bestBlob := Some blob;
                   attempts := S (attempts st) |}
                (PrimFloat.div (PrimFloat.add q (maxQuality st)) 2%float)))) /\
  callback target100 initialSearch 0.8%float
           {| blob_id := 1; blob_size := 256000%float |} =
    Retry {| minQuality := 0.1%float; maxQuality := 0.8%float;
             bestBlob := None; attempts := 1 |} 0.45%float /\
  (forall toBlob : Encoder,
      toBlob jpeg 0.8%float = Some 256000%float ->
      toBlob jpeg 0.45%float = Some 92160%float ->
      compressImage toBlob target100 =
        Some {| promise := Resolved {| blob_id := 2; blob_size := 92160%float |};
                final := {| minQuality := 0.1%float; maxQuality := 0.8%float;
                            bestBlob := None; attempts := 1 |};
                encodes := [0.45%float; 0.8%float] |}).
Proof.
  split; [|split].
  - intros settings st q blob. unfold callback. split.
    + intros ->. reflexivity.
    + intros -> Hlt. apply Nat.leb_gt in Hlt. rewrite Hlt. cbn [orb].
      split; intros ->; reflexivity.
  - vm_compute. reflexivity.
  - intros toBlob H1 H2.
    unfold compressImage, target100, maxAttempts.
    cbn [tryCompress format quality]. rewrite H1.
    change (callback _ initialSearch _ _) with
      (callback target100 initialSearch 0.8%float
                {| blob_id := 1; blob_size := 256000%float |}).
    replace (callback target100 initialSearch 0.8%float
                {| blob_id := 1; blob_size := 256000%float |})
      with (Retry {| minQuality := 0.1%float; maxQuality := 0.8%float;
                     bestBlob := None; attempts := 1 |} 0.45%float)
      by (vm_compute; reflexivity).
    cbn [tryCompress format]. rewrite H2.
    vm_compute. reflexivity.
Qed.

Lemma tryCompress_iteration_witness :
  callback target100 initialSearch 0.8%float
           {| blob_id := 1; blob_size := 256000%float |} =
    Retry {| minQuality := 0.1%float; maxQuality := 0.8%float;
             bestBlob := None; attempts := 1 |}
          (PrimFloat.div (PrimFloat.add 0.1%float 0.8%float) 2%float) /\
  compressImage scenario target100 =
    Some {| promise := Resolved {| blob_id := 2; blob_size := 92160%float |};
            final := {| minQuality := 0.1%float; maxQuality := 0.8%float;
                        bestBlob := None; attempts := 1 |};
            encodes := [0.45%float; 0.8%float] |}.
Proof.
  split.
  - apply (proj1 (proj2 (proj1 tryCompress_iteration target100 initialSearch
                           0.8%float
                           {| blob_id := 1; blob_size := 256000%float |})
                    eq_refl ltac:(unfold initialSearch, maxAttempts; simpl; lia))
                 eq_refl).
  - exact (proj2 (proj2 tryCompress_iteration) scenario eq_refl eq_refl).
Defined.

(** C3.  When [compressImage] resolves with a blob that is not within
    the tolerance (the attempt budget is used up), that blob is the one
    the last, eleventh encoder call produced; the blob held in [bestBlob]
    comes from an earlier call and is a different object. *)
Theorem exhaustion_returns_last_blob :
  forall (toBlob : Encoder) settings r b,
    compressImage toBlob settings = Some r ->
    promise r = Resolved b ->
    closeEnough settings b = false ->
    length (encodes r) = S maxAttempts /\
    blob_id b = length (encodes r) /\
    (exists q, hd_error (encodes r) = Some q /\
               toBlob (format settings) q = Some (blob_size b)) /\
    (forall bb, bestBlob (final r) = Some bb ->
                blob_id bb < blob_id b /\ bb <> b).
Proof.
  intros toBlob settings r b Hrun Hp Hfar.
  pose proof (tryCompress_run toBlob settings _ _ _ _ _
                consistent_initial Hrun) as (Hlen & _ & Hbest & Hres).
  rewrite Hp in Hres. destruct Hres as (Hid & Hq & Hex).
  specialize (Hex Hfar).
  split; [lia|]. split; [exact Hid|]. split; [exact Hq|].
  intros bb Hbb. apply Hbest in Hbb. split; [lia|].
  intros ->. lia.
Qed.

Lemma exhaustion_returns_last_blob_witness :
  compressImage undersize target100 =
    Some {| promise := Resolved {| blob_id := 11; blob_size := 1024%float |};
            final := {| minQuality := 0.99960937500000002%float;
                        maxQuality := 1%float;
                        bestBlob :=
                          Some {| blob_id := 10; blob_size := 1024%float |};
                        attempts := 10 |};
            encodes :=
              [0.99980468749999996%float; 0.99960937500000002%float;
               0.99921875000000004%float; 0.99843749999999998%float;
               0.99687499999999996%float; 0.99375000000000002%float;
               0.98750000000000004%float; 0.97499999999999998%float;
               0.94999999999999996%float; 0.90000000000000002%float;
               0.80000000000000004%float] |} /\
  (forall bb,
      Some {| blob_id := 10; blob_size := 1024%float |} = Some bb ->
      blob_id bb < 11 /\
      bb <> {| blob_id := 11; blob_size := 1024%float |}).
Proof.
  assert (Hrun : compressImage undersize target100 =
    Some {| promise := Resolved {| blob_id := 11; blob_size := 1024%float |};
            final := {| minQuality := 0.99960937500000002%float;
                        maxQuality := 1%float;
                        bestBlob :=
                          Some {| blob_id := 10; blob_size := 1024%float |};
                        attempts := 10 |};
            encodes :=
              [0.99980468749999996%float; 0.99960937500000002%float;
               0.99921875000000004%float; 0.99843749999999998%float;
               0.99687499999999996%float; 0.99375000000000002%float;
               0.98750000000000004%float; 0.97499999999999998%float;
               0.94999999999999996%float; 0.90000000000000002%float;
               0.80000000000000004%float] |})
    by (vm_compute; reflexivity).
  split; [exact Hrun|].
  exact (proj2 (proj2 (proj2
           (exhaustion_returns_last_blob undersize target100 _ _
              Hrun eq_refl eq_refl)))).
Defined.

(** C9 (the code departs from it).  The claim: a failed encode aborts the
    search for that image only and the rest of the batch is still
    processed.  In the code the promise of such an image is never
    settled, so the [await] in the loop does not return: with a first
    image the encoder gives no data for, [handleCompress] stops there and
    the second image, which compresses on its own, is not reached. *)
Theorem handleCompress_stalls_on_null_blob :
  handleCompress target100 [first; second] = Suspended [] [second] /\
  handleCompress target100 [second] =
    Complete [{| fileName := 2; canvasEncoder := scenario;
                 compressedBlob :=
                   Some {| blob_id := 2; blob_size := 92160%float |} |}].
Proof.
  split; vm_compute; reflexivity.
Qed.

(** The batch loop always ends in one of its three outcomes: the fuel
    of the search is never the reason it stops. *)
Lemma compressLoop_settles settings imageFiles :
  forall compressedFiles,
    compressLoop settings imageFiles compressedFiles <> Diverged.
Proof.
  induction imageFiles as [|imageFile rest IH]; intros compressedFiles;
    cbn [compressLoop]; [discriminate|].
  destruct (compressImage_returns (canvasEncoder imageFile) settings)
    as (r & -> & _ & _).
  destruct (promise r); [apply IH | apply IH | discriminate].
Qed.

(** The general shape of the stall: whatever follows an image the
    encoder gives no data for at the initial quality is not reached. *)
Lemma handleCompress_pending settings imageFile rest :
  canvasEncoder imageFile (format settings) (quality settings) = None ->
  handleCompress settings (imageFile :: rest) = Suspended [] rest.
Proof.
  intros Hnone.
  unfold handleCompress, compressLoop, compressImage.
  cbn [tryCompress]. rewrite Hnone. reflexivity.
Qed.

End SearchClaims.

(* ================================================================= *)
(** * Properties of the crop rectangle *)

(** Names every [Qmax] and [Qmin] of the goal and keeps only its
    defining case split, so that linear arithmetic finishes. *)
Ltac minmax :=
  repeat match goal with
  | |- context [Qmax ?a ?b] =>
      let m := fresh "m" in
      pose proof (Q.max_spec a b); set (m := Qmax a b) in *; clearbody m
  | |- context [Qmin ?a ?b] =>
      let m := fresh "m" in
      pose proof (Q.min_spec a b); set (m := Qmin a b) in *; clearbody m
  | _ : context [Qmax ?a ?b] |- _ =>
      let m := fresh "m" in
      pose proof (Q.max_spec a b); set (m := Qmax a b) in *; clearbody m
  | _ : context [Qmin ?a ?b] |- _ =>
      let m := fresh "m" in
      pose proof (Q.min_spec a b); set (m := Qmin a b) in *; clearbody m
  end.

Section CropFacts.

Import Cropper Invariants.
Local Open Scope Q_scope.

Lemma resize_sized handle deltaX deltaY cw ch prev :
  sized prev -> sized (resize handle deltaX deltaY cw ch prev).
Proof.
  unfold sized. intros [Hw Hh].
  destruct handle; cbn [resize width height]; split; minmax; lra.
Qed.

Lemma drag_sized deltaX deltaY cw ch prev :
  sized prev -> sized (drag deltaX deltaY cw ch prev).
Proof.
  unfold sized. intros [Hw Hh]. cbn [drag width height]. split; assumption.
Qed.

Lemma initialCrop_sized cw ch :
  sized (initialCrop cw ch) <-> 100 <= cw /\ 100 <= ch.
Proof.
  unfold sized, initialCrop, initialSize. cbn [width height].
  split.
  - intros [Hw _]. minmax. lra.
  - intros [Hw Hh]. minmax. lra.
Qed.

(** The pointer handlers leave the canvas as it is. *)
Lemma handle_canvas st ev :
  canvasWidth (handle st ev) = canvasWidth st /\
  canvasHeight (handle st ev) = canvasHeight st.
Proof.
  destruct ev as [pos|pos| | |touches|touches| | | | | ];
    cbn [handle]; try (split; reflexivity).
  - unfold handleMouseDown.
    destruct (getResizeHandle st (px pos) (py pos)); [split; reflexivity|].
    match goal with |- context [if ?c then _ else _] => destruct c end;
      split; reflexivity.
  - unfold handleMouseMove.
    destruct (isResizing st), (resizeHandle st), (isDragging st);
      split; reflexivity.
  - destruct touches as [|touch ?]; [split; reflexivity|].
    unfold handleMouseDown.
    destruct (getResizeHandle st (px touch) (py touch)); [split; reflexivity|].
    match goal with |- context [if ?c then _ else _] => destruct c end;
      split; reflexivity.
  - destruct touches as [|touch ?]; [split; reflexivity|].
    unfold handleMouseMove.
    destruct (isResizing st), (resizeHandle st), (isDragging st);
      split; reflexivity.
Qed.

Lemma handleMouseDown_cropArea st pos :
  cropArea (handleMouseDown st pos) = cropArea st.
Proof.
  unfold handleMouseDown.
  destruct (getResizeHandle st (px pos) (py pos)); [reflexivity|].
  match goal with |- context [if ?c then _ else _] => destruct c end;
    reflexivity.
Qed.

(** A pointer move keeps the rectangle, resizes it or drags it. *)
Lemma handleMouseMove_cropArea st pos :
  let deltaX := px pos - px (dragStart st) in
  let deltaY := py pos - py (dragStart st) in
  cropArea (handleMouseMove st pos) = cropArea st \/
  (exists h,
      cropArea (handleMouseMove st pos) =
        resize h deltaX deltaY (canvasWidth st) (canvasHeight st) (cropArea st)) \/
  cropArea (handleMouseMove st pos) =
    drag deltaX deltaY (canvasWidth st) (canvasHeight st) (cropArea st).
Proof.
  unfold handleMouseMove.
  destruct (isResizing st), (resizeHandle st) as [h|], (isDragging st);
    cbn; eauto.
Qed.

Lemma handleMouseMove_sized st pos :
  sized (cropArea st) -> sized (cropArea (handleMouseMove st pos)).
Proof.
  intros Hs.
  destruct (handleMouseMove_cropArea st pos) as [-> | [[h ->] | ->]].
  - exact Hs.
  - apply resize_sized, Hs.
  - apply drag_sized, Hs.
Qed.

(** Every event other than [Reset] keeps a rectangle of at least
    50 x 50 that large; [Reset] installs the initial rectangle. *)
Lemma handle_sized st ev :
  sized (cropArea st) ->
  ev = Reset \/ sized (cropArea (handle st ev)).
Proof.
  intros Hs.
  destruct ev as [pos|pos| | |touches|touches| | | | | ];
    cbn [handle]; try (right; exact Hs); try (left; reflexivity); right.
  - rewrite handleMouseDown_cropArea. exact Hs.
  - apply handleMouseMove_sized, Hs.
  - destruct touches as [|touch ?]; cbn [setIsTouch cropArea]; [exact Hs|].
    rewrite handleMouseDown_cropArea. exact Hs.
  - destruct touches as [|touch ?]; [exact Hs|].
    apply handleMouseMove_sized, Hs.
Qed.

Lemma run_sized evs :
  forall st,
    100 <= canvasWidth st -> 100 <= canvasHeight st ->
    sized (cropArea st) ->
    sized (cropArea (run st evs)).
Proof.
  unfold run.
  induction evs as [|ev evs IH]; intros st Hw Hh Hs; [exact Hs|].
  cbn [fold_left].
  destruct (handle_canvas st ev) as [Hcw Hch].
  apply IH; [rewrite Hcw; exact Hw | rewrite Hch; exact Hh |].
  destruct (handle_sized st ev Hs) as [-> | Hs']; [|exact Hs'].
  cbn [handle resetCrop setCropArea cropArea].
  apply initialCrop_sized. split; assumption.
Qed.

End CropFacts.

Section CropClaims.

Import Cropper CropInputs Invariants.
Local Open Scope Q_scope.

(** C4, as the code has it.  The rectangle set when the image loads is a
    square of side [min(200, canvas.width / 2, canvas.height / 2)], so it
    is at least 50 x 50 exactly when the canvas is at least 100 x 100;
    every pointer event keeps a rectangle of at least 50 x 50 that large;
    hence on a canvas of at least 100 x 100 the rectangle is at least
    50 x 50 after any sequence of events. *)
Theorem cropArea_min_size :
  (forall w h,
      let st := onload initialState w h in
      sized (cropArea st) <->
      100 <= canvasWidth st /\ 100 <= canvasHeight st) /\
  (forall st pos, sized (cropArea st) ->
                  sized (cropArea (handleMouseMove st pos))) /\
  (forall w h evs,
      let st := onload initialState w h in
      100 <= canvasWidth st -> 100 <= canvasHeight st ->
      sized (cropArea (run st evs))).
Proof.
  split; [|split].
  - intros w h st. subst st. cbn [onload cropArea canvasWidth canvasHeight].
    apply initialCrop_sized.
  - apply handleMouseMove_sized.
  - intros w h evs st Hw Hh.
    apply run_sized; [exact Hw | exact Hh |].
    subst st. cbn [onload cropArea canvasWidth canvasHeight] in *.
    apply initialCrop_sized. split; assumption.
Qed.

Lemma cropArea_min_size_witness :
  sized (cropArea
           (run loaded
                [MouseDown {| px := 210; py := 200 |};
                 MouseMove {| px := 380; py := 200 |};
                 MouseUp;
                 TouchStart [{| px := 400; py := 300 |}];
                 TouchMove [{| px := 900; py := 0 - 50 |}];
                 TouchEnd;
                 Reset])).
Proof.
  apply (proj2 (proj2 cropArea_min_size) 1200 800);
    vm_compute; intros H; discriminate H.
Defined.

(** C4 as stated fails on a small image: a 60 x 60 image gives a
    60 x 60 canvas and an initial rectangle of 30 x 30. *)
Lemma initial_crop_below_min_size :
  canvasWidth loadedSmall == 60 /\
  width (cropArea loadedSmall) == 30 /\
  height (cropArea loadedSmall) == 30 /\
  width (cropArea loadedSmall) < 50.
Proof.
  vm_compute. repeat split; reflexivity.
Qed.

(** C5 (the code departs from it).  The claim: a resize keeps the
    rectangle inside the canvas and the edge opposite the handle where it
    was.  From the loaded dialog (canvas 600 x 400, rectangle 200 x 200 at
    (200, 100), right edge at 400), grabbing the west handle at (210, 200)
    and moving the pointer to the canvas edge (0, 200) gives x = 0 and
    width = 410: the right edge has moved to 410.  The same grab by touch,
    moved to (-500, 200), gives width = 910 on the 600 wide canvas. *)
Theorem resize_west_moves_east_edge :
  let before := cropArea loaded in
  let mouse := cropArea (run loaded [MouseDown {| px := 210; py := 200 |};
                                     MouseMove {| px := 0; py := 200 |}]) in
  let touch := cropArea (run loaded [TouchStart [{| px := 210; py := 200 |}];
                                     TouchMove [{| px := 0 - 500; py := 200 |}]]) in
  inside 600 400 before /\ sized before /\
  x before + width before == 400 /\
  x mouse == 0 /\ width mouse == 410 /\ x mouse + width mouse == 410 /\
  x touch == 0 /\ width touch == 910 /\ canvasWidth loaded < x touch + width touch.
Proof.
  vm_compute. repeat split; try reflexivity; intros H; discriminate H.
Qed.

(** The east and south handles do what C5 says: on a rectangle of at
    least 50 x 50 inside the canvas they keep the result inside the canvas
    and the top-left corner in place. *)
Lemma resize_east_south_inside handle deltaX deltaY cw ch prev :
  handle = He \/ handle = Hs \/ handle = Hse ->
  sized prev -> inside cw ch prev ->
  inside cw ch (resize handle deltaX deltaY cw ch prev) /\
  x (resize handle deltaX deltaY cw ch prev) = x prev /\
  y (resize handle deltaX deltaY cw ch prev) = y prev.
Proof.
  unfold sized, inside.
  intros [-> | [-> | ->]] [Hw Hh] (Hx & Hy & Hr & Hb);
    cbn [resize x y width height];
    (split; [|split; reflexivity]);
    repeat split; minmax; lra.
Qed.

(** C8.  While dragging, a pointer move on a rectangle inside the canvas
    leaves [width] and [height] as they are and sets [x] and [y] to the
    moved position clamped into [0, canvas.width - width] and
    [0, canvas.height - height]. *)
Theorem drag_preserves_size :
  forall st pos,
    isDragging st = true ->
    isResizing st = false ->
    inside (canvasWidth st) (canvasHeight st) (cropArea st) ->
    let prev := cropArea st in
    let next := cropArea (handleMouseMove st pos) in
    let deltaX := px pos - px (dragStart st) in
    let deltaY := py pos - py (dragStart st) in
    width next = width prev /\
    height next = height prev /\
    x next = Qmax 0 (Qmin (x prev + deltaX) (canvasWidth st - width prev)) /\
    y next = Qmax 0 (Qmin (y prev + deltaY) (canvasHeight st - height prev)) /\
    0 <= x next <= canvasWidth st - width prev /\
    0 <= y next <= canvasHeight st - height prev /\
    inside (canvasWidth st) (canvasHeight st) next.
Proof.
  intros st pos Hdrag Hres (Hx & Hy & Hr & Hb) prev next deltaX deltaY.
  subst prev next deltaX deltaY.
  unfold inside, handleMouseMove. rewrite Hdrag, Hres.
  cbn [setDragStart setCropArea cropArea drag x y width height].
  repeat split; try reflexivity; minmax; lra.
Qed.

Lemma drag_preserves_size_witness :
  width (cropArea (handleMouseMove dragging far)) = width (cropArea dragging) /\
  height (cropArea (handleMouseMove dragging far)) = height (cropArea dragging) /\
  0 <= x (cropArea (handleMouseMove dragging far))
    <= canvasWidth dragging - width (cropArea dragging) /\
  0 <= y (cropArea (handleMouseMove dragging far))
    <= canvasHeight dragging - height (cropArea dragging).
Proof.
  assert (Hin : inside (canvasWidth dragging) (canvasHeight dragging)
                       (cropArea dragging))
    by (vm_compute; repeat split; intros H; discriminate H).
  destruct (drag_preserves_size dragging far eq_refl eq_refl Hin)
    as (Hw & Hh & _ & _ & Hx & Hy & _).
  repeat split; solve [assumption | apply Hx | apply Hy].
Defined.

End CropClaims.

Section ExtractionClaims.

Import Cropper CropInputs Invariants.
Local Open Scope Q_scope.

Lemma round_comp a b : a == b -> round a = round b.
Proof.
  intros Hab. unfold round. f_equal. apply Qfloor_comp. rewrite Hab. reflexivity.
Qed.

(** The temporary canvas of [Cropper.handleCrop] has the size of the crop
    rectangle scaled to the image, whatever the rotation. *)
Lemma handleCrop_out st :
  outWidth (handleCrop st) =
    round (width (cropArea st) * (imgWidth st / canvasWidth st)) /\
  outHeight (handleCrop st) =
    round (height (cropArea st) * (imgHeight st / canvasHeight st)).
Proof.
  unfold handleCrop.
  destruct (negb (Z.rem (rotation st) 180 =? 0)%Z);
    [destruct (rotation st =? 90)%Z; [|destruct (rotation st =? 270)%Z]|];
    split; reflexivity.
Qed.

(** C6, as the code has it.  The output buffer of [handleCrop] is sized
    in image pixels: [round(rect.width * scaleX)] by
    [round(rect.height * scaleY)] with [scaleX = img.width / canvas.width]
    and [scaleY = img.height / canvas.height], for every rotation; the
    second cropper sizes it the same way at 0 and 180 degrees.  It is the
    rounded size of the rectangle when the canvas has the size of the
    image.  The 200 x 200 rectangle on the 600 x 400 canvas of a
    1200 x 800 image gives 400 x 400. *)
Theorem handleCrop_output_size :
  forall st,
    let scaleX := imgWidth st / canvasWidth st in
    let scaleY := imgHeight st / canvasHeight st in
    let rect := cropArea st in
    (outWidth (handleCrop st) = round (width rect * scaleX) /\
     outHeight (handleCrop st) = round (height rect * scaleY)) /\
    (canvasWidth st == imgWidth st -> canvasHeight st == imgHeight st ->
     0 < imgWidth st -> 0 < imgHeight st ->
     outWidth (handleCrop st) = round (width rect) /\
     outHeight (handleCrop st) = round (height rect)) /\
    (rotation st = 0%Z \/ rotation st = 180%Z ->
     exists e, Cropper2.handleCrop st = Some e /\
               outWidth e = round (width rect * scaleX) /\
               outHeight e = round (height rect * scaleY)) /\
    (forall r,
        outWidth (handleCrop (committed square200 r)) == 400 /\
        outHeight (handleCrop (committed square200 r)) == 400).
Proof.
  intros st scaleX scaleY rect. subst scaleX scaleY rect.
  destruct (handleCrop_out st) as [Hw Hh].
  split; [split; assumption|].
  split.
  { intros Hcw Hch Hiw Hih. rewrite Hw, Hh.
    split; apply round_comp.
    - rewrite Hcw. field. lra.
    - rewrite Hch. field. lra. }
  split.
  { intros [Hr | Hr]; unfold Cropper2.handleCrop; rewrite Hr;
      cbn [Z.eqb Pos.eqb]; eexists; split; try reflexivity;
      split; reflexivity. }
  intros r.
  destruct (handleCrop_out (committed square200 r)) as [-> ->].
  vm_compute. split; reflexivity.
Qed.

Lemma handleCrop_output_size_witness :
  outWidth (handleCrop loadedNative) = round (width (cropArea loadedNative)) /\
  outHeight (handleCrop loadedNative) = round (height (cropArea loadedNative)).
Proof.
  apply (proj1 (proj2 (handleCrop_output_size loadedNative)));
    vm_compute; reflexivity.
Defined.

(** C6 as stated fails wherever the image is larger than the canvas: the
    200 x 200 rectangle of the scenario, rounded, is 200 x 200, and the
    buffer is 400 x 400. *)
Lemma output_is_not_display_size :
  round (width (cropArea (committed square200 0))) == 200 /\
  round (height (cropArea (committed square200 0))) == 200 /\
  outWidth (handleCrop (committed square200 0)) == 400 /\
  outHeight (handleCrop (committed square200 0)) == 400 /\
  round (width (cropArea (committed square200 0)))
    < outWidth (handleCrop (committed square200 0)).
Proof.
  vm_compute. repeat split; reflexivity.
Qed.

(** C7.  At 90 degrees the two [handleCrop] read different rectangles of
    the image.  For a 300 x 300 image (scale factor 1 in both croppers)
    and the rectangle (50.5, 50, 100.5, 100), the first computes
    [sy = img.width - cropX - cropWidth = 300 - 51 - 101 = 148], the
    second [sy = round(img.width - (x + width) * scaleX) = 149]; and the
    buffers they draw on are 101 x 100 and 100 x 101. *)
Theorem handleCrop_implementations_differ :
  exists st e2,
    rotation st = 90%Z /\
    inside (canvasWidth st) (canvasHeight st) (cropArea st) /\
    sized (cropArea st) /\
    Cropper2.handleCrop st = Some e2 /\
    sx (handleCrop st) == sx e2 /\
    sWidth (handleCrop st) == sWidth e2 /\
    sHeight (handleCrop st) == sHeight e2 /\
    sy (handleCrop st) == 148 /\ sy e2 == 149 /\
    outWidth (handleCrop st) == 101 /\ outHeight (handleCrop st) == 100 /\
    outWidth e2 == 100 /\ outHeight e2 == 101.
Proof.
  exists turned. eexists.
  split; [reflexivity|].
  split; [vm_compute; repeat split; intros H; discriminate H|].
  split; [vm_compute; repeat split; intros H; discriminate H|].
  split; [vm_compute; reflexivity|].
  vm_compute. repeat split; reflexivity.
Qed.

End ExtractionClaims.

Section RescaleClaims.

Import Rescale.
Local Open Scope Q_scope.

Lemma gt_true a b : gt a b = true <-> b < a.
Proof.
  unfold gt. rewrite negb_true_iff.
  split.
  - intros H. apply Qnot_le_lt. intros Hle.
    apply Qle_bool_iff in Hle. congruence.
  - intros H. destruct (Qle_bool a b) eqn:E; [|reflexivity].
    apply Qle_bool_iff in E. lra.
Qed.

Lemma gt_false a b : gt a b = false <-> a <= b.
Proof.
  unfold gt. rewrite negb_false_iff. apply Qle_bool_iff.
Qed.

(** The local [width] and [height] of [img.onload], as numbers, before
    they are stored in the canvas: an image within 1920 x 1920 keeps its
    size; otherwise the larger becomes 1920 and the other is multiplied by
    the same factor. *)
Lemma canvasSize_fits :
  forall w h,
    let width := fst (canvasSize w h) in
    let height := snd (canvasSize w h) in
    (w <= 1920 -> h <= 1920 -> width = w /\ height = h) /\
    (1920 < w \/ 1920 < h ->
     (h < w -> width == 1920 /\ height == h * 1920 / w) /\
     (w <= h -> height == 1920 /\ width == w * 1920 / h) /\
     Qmax width height == 1920 /\
     width * h == w * height).
Proof.
  intros w h width height. subst width height.
  unfold canvasSize, maxDimension.
  destruct (gt w 1920) eqn:Hw; destruct (gt h 1920) eqn:Hh;
    cbn [orb]; try destruct (gt w h) eqn:Hwh; cbn [fst snd];
    rewrite ?gt_true, ?gt_false in *.
  all: split; [intros; try lra; split; reflexivity|].
  all: intros Hbig.
  all: try (exfalso; lra).
  all: split; [intros ?; first [exfalso; lra | split; reflexivity]|].
  all: split; [intros ?; first [exfalso; lra | split; reflexivity]|].
  all: split; [|field; lra].
  all: match goal with
       | |- Qmax 1920 ?v == 1920 =>
           assert (v <= 1920) by (apply Qle_shift_div_r; lra)
       | |- Qmax ?v 1920 == 1920 =>
           assert (v <= 1920) by (apply Qle_shift_div_r; lra)
       end; minmax; lra.
Qed.

(** C10, as the code has it.  The canvas that [compressImage] encodes:
    an image within 1920 x 1920 keeps its size; for an image with a side
    above 1920 the larger side of the canvas is exactly 1920 and the other
    is the proportional length cut down to a whole number of pixels, so
    less than a pixel short of proportional.  Every encoder call of the
    search is made on that canvas, and a blob the promise resolves with is
    what the encoder of that canvas produced at the last quality tried. *)
Theorem compressImage_canvas :
  forall w h : Z,
    let cw := fst (Loader.canvasOf w h) in
    let ch := snd (Loader.canvasOf w h) in
    ((w <= 1920 -> h <= 1920 -> cw = w /\ ch = h) /\
     (1920 < w \/ 1920 < h ->
      Z.max cw ch = 1920 /\
      (h < w ->
       cw = 1920 /\ ch = h * 1920 / w /\
       ch * w <= h * 1920 < (ch + 1) * w) /\
      (w <= h ->
       ch = 1920 /\ cw = w * 1920 / h /\
       cw * h <= w * 1920 < (cw + 1) * h)))%Z /\
    (forall picture settings r b,
        Loader.decoded picture = Some (w, h) ->
        Loader.compressImage picture settings = Some r ->
        Compressor.promise r = Compressor.Resolved b ->
        exists q,
          hd_error (Compressor.encodes r) = Some q /\
          Loader.toBlobAt picture (cw, ch) (Compressor.format settings) q
            = Some (Compressor.blob_size b)).
Proof.
  intros w h cw ch.
  assert (Hsize :
    ((w <= 1920 -> h <= 1920 -> cw = w /\ ch = h) /\
     (1920 < w \/ 1920 < h ->
      Z.max cw ch = 1920 /\
      (h < w ->
       cw = 1920 /\ ch = h * 1920 / w /\
       ch * w <= h * 1920 < (ch + 1) * w) /\
      (w <= h ->
       ch = 1920 /\ cw = w * 1920 / h /\
       cw * h <= w * 1920 < (cw + 1) * h)))%Z).
  { subst cw ch. unfold Loader.canvasOf, Loader.canvasSide, canvasSize,
      maxDimension.
    assert (Hdiv : forall a b : Z,
               Qfloor (inject_Z a * 1920 / inject_Z b) = (a * 1920 / b)%Z).
    { intros a b. rewrite Zdiv_Qdiv. apply Qfloor_comp.
      rewrite inject_Z_mult. reflexivity. }
    assert (Hgt : forall a b : Z, gt (inject_Z a) (inject_Z b) = (b <? a)%Z).
    { intros a b. destruct (Z.ltb_spec b a) as [Hlt | Hle].
      - apply gt_true. rewrite <- Zlt_Qlt. exact Hlt.
      - apply gt_false. rewrite <- Zle_Qle. exact Hle. }
    change (gt (inject_Z w) 1920) with (gt (inject_Z w) (inject_Z 1920)).
    change (gt (inject_Z h) 1920) with (gt (inject_Z h) (inject_Z 1920)).
    rewrite (Hgt w 1920%Z), (Hgt h 1920%Z), (Hgt w h).
    destruct (Z.ltb_spec 1920 w) as [Ew | Ew];
      destruct (Z.ltb_spec 1920 h) as [Eh | Eh];
      cbn [orb];
      try destruct (Z.ltb_spec h w) as [Ewh | Ewh];
      cbn [fst snd];
      rewrite ?Hdiv, ?Qfloor_Z;
      change (Qfloor 1920) with 1920%Z.
    all: split; [intros; first [lia | split; reflexivity]|].
    all: intros Hbig; try lia.
    all: try (assert (Hq1 : (w * (h * 1920 / w) <= h * 1920)%Z)
                by (apply Z.mul_div_le; lia);
              assert (Hq2 : (h * 1920 < w * Z.succ (h * 1920 / w))%Z)
                by (apply Z.mul_succ_div_gt; lia);
              assert (Hq3 : (h * 1920 / w <= 1920)%Z)
                by (apply Z.div_le_upper_bound; lia)).
    all: try (assert (Hq1 : (h * (w * 1920 / h) <= w * 1920)%Z)
                by (apply Z.mul_div_le; lia);
              assert (Hq2 : (w * 1920 < h * Z.succ (w * 1920 / h))%Z)
                by (apply Z.mul_succ_div_gt; lia);
              assert (Hq3 : (w * 1920 / h <= 1920)%Z)
                by (apply Z.div_le_upper_bound; lia)).
    all: repeat split; intros; try reflexivity; try lia. }
  split; [exact Hsize|].
  intros picture settings r b Hdec Hrun Hp.
  unfold Loader.compressImage in Hrun. rewrite Hdec in Hrun.
  replace (cw, ch) with (Loader.canvasOf w h)
    by (subst cw ch; destruct (Loader.canvasOf w h); reflexivity).
  pose proof (tryCompress_run _ settings _ _ _ _ _
                consistent_initial Hrun) as (_ & _ & _ & Hres).
  rewrite Hp in Hres. destruct Hres as (_ & Hq & _). exact Hq.
Qed.

Lemma compressImage_canvas_witness :
  (fst (Loader.canvasOf 4000 3000) = 1920 /\
   snd (Loader.canvasOf 4000 3000) = 3000 * 1920 / 4000 /\
   snd (Loader.canvasOf 4000 3000) * 4000 <= 3000 * 1920
     < (snd (Loader.canvasOf 4000 3000) + 1) * 4000)%Z /\
  (fst (Loader.canvasOf 800 600) = 800 /\
   snd (Loader.canvasOf 800 600) = 600)%Z.
Proof.
  split.
  - exact (proj1 (proj2 (proj2 (proj1 (compressImage_canvas 4000 3000))
                          (or_introl eq_refl))) eq_refl).
  - apply (proj1 (proj1 (compressImage_canvas 800 600)));
      intros H; discriminate H.
Defined.

(** C10 as stated fails on the canvas: a 4001 x 3000 image gets a
    1920 x 1439 canvas, whose sides are not in the ratio of the image's
    (1439 x 4001 is less than 3000 x 1920), although the local [height]
    is the proportional 1439.64...; and a 1 x 4000 image gets a canvas
    0 pixels wide. *)
Lemma canvas_not_proportional :
  (Loader.canvasOf 4001 3000 = (1920, 1439) /\
   1439 * 4001 < 3000 * 1920 /\
   Loader.canvasOf 1 4000 = (0, 1920))%Z /\
  snd (canvasSize 4001 3000) == 3000 * 1920 / 4001 /\
  ~ snd (canvasSize 4001 3000) == 1439.
Proof.
  split; [vm_compute; repeat split; reflexivity|].
  split; [vm_compute; reflexivity|].
  vm_compute. intros H. discriminate H.
Qed.

End RescaleClaims.

(* ================================================================= *)
(** * Further properties of the compression search *)

Section SearchBounds.

Import Compressor SearchInputs Invariants SearchRange.
Local Open Scope nat_scope.

(** Once [img.onload] has fired.  For every canvas and every setting
    the search makes between one and eleven encoder calls and then either
    resolves or is left pending, and is never rejected.  If the encoder
    always produces data the promise is resolved, with the blob of the
    last call, and that blob is within the tolerance unless eleven calls
    were made. *)
Lemma compressImage_settles :
  forall (toBlob : Encoder) settings,
  exists r,
    compressImage toBlob settings = Some r /\
    1 <= length (encodes r) <= S maxAttempts /\
    promise r <> Rejected /\
    ((forall q, toBlob (format settings) q <> None) ->
     exists b,
       promise r = Resolved b /\
       blob_id b = length (encodes r) /\
       (closeEnough settings b = true \/ length (encodes r) = S maxAttempts)).
Proof.
  intros toBlob settings.
  destruct (compressImage_returns toBlob settings) as (r & Hrun & Hlen & Hrej).
  exists r. split; [exact Hrun|].
  pose proof (tryCompress_run toBlob settings _ _ _ _ _
                consistent_initial Hrun) as (Hcount & Hle & _ & Hp).
  split; [lia|]. split; [exact Hrej|].
  intros Htotal.
  destruct (promise r) as [b| |] eqn:Hprom.
  - exists b. destruct Hp as (Hid & _ & Hfar).
    split; [reflexivity|]. split; [exact Hid|].
    destruct (closeEnough settings b) eqn:Hclose; [left; reflexivity|].
    right. rewrite Hcount, (Hfar eq_refl). reflexivity.
  - contradiction.
  - destruct Hp as (q & _ & Hnone). elim (Htotal q Hnone).
Qed.

(** X1.  [compressImage] from the load of the image on: it makes at
    most eleven encoder calls and its promise is never rejected.  When the
    image does not decode, [img.onload] never fires: no encoder call is
    made and the promise stays pending.  When it decodes, at least one
    call is made, on the canvas sized for it; and if that canvas's encoder
    produces data at every quality the promise is resolved, with the blob
    of the last call, and that blob is within the tolerance unless eleven
    calls were made. *)
Theorem compressImage_promise :
  forall picture settings,
  exists r,
    Loader.compressImage picture settings = Some r /\
    length (encodes r) <= S maxAttempts /\
    promise r <> Rejected /\
    (Loader.decoded picture = None ->
     promise r = Pending /\ encodes r = []) /\
    (forall w h,
        Loader.decoded picture = Some (w, h) ->
        1 <= length (encodes r) /\
        ((forall q, Loader.toBlobAt picture (Loader.canvasOf w h)
                      (format settings) q <> None) ->
         exists b,
           promise r = Resolved b /\
           blob_id b = length (encodes r) /\
           (closeEnough settings b = true \/
            length (encodes r) = S maxAttempts))).
Proof.
  intros picture settings. unfold Loader.compressImage.
  destruct (Loader.decoded picture) as [[w h]|] eqn:Hdec.
  - destruct (compressImage_settles
                (Loader.toBlobAt picture (Loader.canvasOf w h)) settings)
      as (r & Hrun & [Hone Hmax] & Hrej & Hres).
    exists r. split; [exact Hrun|]. split; [exact Hmax|].
    split; [exact Hrej|]. split; [intros H; discriminate H|].
    intros w' h' Heq. inversion Heq; subst w' h'.
    split; [exact Hone | exact Hres].
  - eexists. split; [reflexivity|]. cbn [encodes promise length].
    split; [lia|]. split; [discriminate|].
    split; [intros _; split; reflexivity|].
    intros w h H. discriminate H.
Qed.

Lemma compressImage_promise_witness :
  exists r,
    Loader.compressImage
      {| Loader.decoded := Some (4001, 3000)%Z;
         Loader.toBlobAt := fun _ => undersize |} target100 = Some r /\
    1 <= length (encodes r) /\
    exists b,
      promise r = Resolved b /\
      blob_id b = length (encodes r) /\
      (closeEnough target100 b = true \/ length (encodes r) = S maxAttempts).
Proof.
  destruct (compressImage_promise
              {| Loader.decoded := Some (4001, 3000)%Z;
                 Loader.toBlobAt := fun _ => undersize |} target100)
    as (r & Hrun & _ & _ & _ & Hloaded).
  exists r. split; [exact Hrun|].
  destruct (Hloaded 4001%Z 3000%Z eq_refl) as [Hone Hres].
  split; [exact Hone|].
  apply Hres. intros q H. discriminate H.
Defined.

(** The two ways the callback retries. *)
Lemma callback_Retry_cases settings st q blob st' q' :
  callback settings st q blob = Retry st' q' ->
  (minQuality st' = minQuality st /\ maxQuality st' = q /\
   q' = PrimFloat.div (PrimFloat.add (minQuality st) q) 2%float) \/
  (minQuality st' = q /\ maxQuality st' = maxQuality st /\
   q' = PrimFloat.div (PrimFloat.add q (maxQuality st)) 2%float).
Proof.
  unfold callback.
  destruct (closeEnough settings blob || (maxAttempts <=? attempts st))%bool;
    [intros H; discriminate H|].
  destruct (PrimFloat.ltb (targetSize settings) (sizeKB blob));
    intros H; inversion H; subst; cbn [minQuality maxQuality];
    [left | right]; repeat split; reflexivity.
Qed.

(** Whatever the blobs, a search entered inside a checked tree only
    calls the encoder at qualities of [0.1, 1], and ends with the last
    quality between [minQuality] and [maxQuality]. *)
Lemma tryCompress_bracket toBlob settings n :
  forall st calls q r,
    bracketTree n (minQuality st) (maxQuality st) q = true ->
    Forall (fun c => inRange c = true) calls ->
    tryCompress toBlob settings (S n) st calls q = Some r ->
    Forall (fun c => inRange c = true) (encodes r) /\
    hd_error (encodes r) <> None /\
    (forall c, hd_error (encodes r) = Some c ->
               inBracket (minQuality (final r)) (maxQuality (final r)) c = true).
Proof.
  induction n as [|n IH]; intros st calls q r Htree Hcalls Hrun.
  - cbn [bracketTree] in Htree. rewrite !andb_true_iff in Htree.
    destruct Htree as [[Hb Hr] _].
    cbn [tryCompress] in Hrun.
    destruct (toBlob (format settings) q) as [size|].
    + destruct (callback settings st q _) as [b|st' q'];
        [|discriminate Hrun].
      inversion Hrun; subst r; cbn [encodes final hd_error].
      split; [constructor; assumption|].
      split; [discriminate|]. intros c Hc. inversion Hc; subst c. exact Hb.
    + inversion Hrun; subst r; cbn [encodes final hd_error].
      split; [constructor; assumption|].
      split; [discriminate|]. intros c Hc. inversion Hc; subst c. exact Hb.
  - cbn [bracketTree] in Htree. rewrite !andb_true_iff in Htree.
    destruct Htree as [[Hb Hr] [Hdown Hup]].
    remember (S n) as fuel eqn:Hfuel.
    cbn [tryCompress] in Hrun.
    destruct (toBlob (format settings) q) as [size|].
    + destruct (callback settings st q _) as [b|st' q'] eqn:Hcb.
      * inversion Hrun; subst r; cbn [encodes final hd_error].
        split; [constructor; assumption|].
        split; [discriminate|]. intros c Hc. inversion Hc; subst c. exact Hb.
      * subst fuel.
        apply callback_Retry_cases in Hcb
          as [(Hlo & Hhi & ->) | (Hlo & Hhi & ->)];
          (eapply IH;
           [rewrite Hlo, Hhi; eassumption
           | constructor; eassumption
           | exact Hrun]).
    + inversion Hrun; subst r; cbn [encodes final hd_error].
      split; [constructor; assumption|].
      split; [discriminate|]. intros c Hc. inversion Hc; subst c. exact Hb.
Qed.

(** X2.  Started from one of the slider's qualities, the search only
    ever asks the encoder for a quality in [0.1, 1], whatever the sizes
    the encoder reports and whatever the target; and when it ends, the
    quality of the last call lies between the final [minQuality] and
    [maxQuality], themselves in [0.1, 1]. *)
Theorem search_stays_in_range :
  forall (toBlob : Encoder) settings r,
    In (quality settings) sliderQualities ->
    compressImage toBlob settings = Some r ->
    Forall (fun c => inRange c = true) (encodes r) /\
    (forall c, hd_error (encodes r) = Some c ->
               inBracket (minQuality (final r)) (maxQuality (final r)) c = true).
Proof.
  intros toBlob settings r Hq Hrun.
  assert (Htree : bracketTree maxAttempts 0.1%float 1%float (quality settings)
                  = true).
  { unfold sliderQualities in Hq. cbn [In] in Hq.
    repeat (destruct Hq as [<- | Hq]; [vm_compute; reflexivity|]).
    contradiction. }
  destruct (tryCompress_bracket toBlob settings maxAttempts initialSearch []
              (quality settings) r Htree (Forall_nil _) Hrun)
    as (Hall & _ & Hlast).
  split; assumption.
Qed.

Lemma undersize_run :
  compressImage undersize target100 =
    Some {| promise := Resolved {| blob_id := 11; blob_size := 1024%float |};
            final := {| minQuality := 0.99960937500000002%float;
                        maxQuality := 1%float;
                        bestBlob :=
                          Some {| blob_id := 10; blob_size := 1024%float |};
                        attempts := 10 |};
            encodes :=
              [0.99980468749999996%float; 0.99960937500000002%float;
               0.99921875000000004%float; 0.99843749999999998%float;
               0.99687499999999996%float; 0.99375000000000002%float;
               0.98750000000000004%float; 0.97499999999999998%float;
               0.94999999999999996%float; 0.90000000000000002%float;
               0.80000000000000004%float] |}.
Proof.
  vm_compute. reflexivity.
Qed.

Lemma search_stays_in_range_witness :
  Forall (fun c => inRange c = true)
         [0.99980468749999996%float; 0.99960937500000002%float;
          0.99921875000000004%float; 0.99843749999999998%float;
          0.99687499999999996%float; 0.99375000000000002%float;
          0.98750000000000004%float; 0.97499999999999998%float;
          0.94999999999999996%float; 0.90000000000000002%float;
          0.80000000000000004%float].
Proof.
  exact (proj1 (search_stays_in_range undersize target100 _
                  (or_intror (or_intror (or_intror (or_intror (or_intror
                     (or_intror (or_intror (or_introl eq_refl))))))))
                  undersize_run)).
Defined.

Lemma compressLoop_outcomes settings imageFiles :
  forall done,
    match compressLoop settings imageFiles done with
    | NoImages => False
    | Complete compressedFiles =>
        exists pushed,
          compressedFiles = done ++ pushed /\
          Forall2 (pushedFor settings) imageFiles pushed
    | Suspended compressedFiles notReached =>
        exists before stuck pushed r,
          imageFiles = before ++ stuck :: notReached /\
          compressedFiles = done ++ pushed /\
          Forall2 (pushedFor settings) before pushed /\
          compressImage (canvasEncoder stuck) settings = Some r /\
          promise r = Pending
    | Diverged => False
    end.
Proof.
  induction imageFiles as [|imageFile rest IH]; intros done;
    cbn [compressLoop].
  - exists []. split; [rewrite app_nil_r; reflexivity | constructor].
  - destruct (compressImage_returns (canvasEncoder imageFile) settings)
      as (r & Hrun & _ & Hrej).
    rewrite Hrun.
    destruct (promise r) as [b| |] eqn:Hp; [|contradiction|].
    + set (entry := {| fileName := fileName imageFile;
                       canvasEncoder := canvasEncoder imageFile;
                       compressedBlob := Some b |}).
      specialize (IH (done ++ [entry])).
      assert (Hpushed : pushedFor settings imageFile entry).
      { split; [reflexivity|]. split; [reflexivity|].
        exists r, b. repeat split; assumption. }
      destruct (compressLoop settings rest (done ++ [entry]))
        as [|cs|cs nr|]; try contradiction.
      * destruct IH as (pushed & -> & Hall).
        exists (entry :: pushed). rewrite <- app_assoc. split; [reflexivity|].
        constructor; assumption.
      * destruct IH as (before & stuck & pushed & r' & -> & -> & Hall & Hr' & Hp').
        exists (imageFile :: before), stuck, (entry :: pushed), r'.
        rewrite <- app_assoc.
        repeat split; try assumption; try reflexivity.
        constructor; assumption.
    + exists [], imageFile, [], r.
      rewrite app_nil_r.
      repeat split; try assumption; try reflexivity. constructor.
Qed.

(** X3.  [handleCompress] never skips an image.  On an empty list it
    only shows the toast.  Otherwise it either finishes with one entry
    per image, in order, each carrying the blob its search resolved with,
    or it stops at the first image whose search is left pending, having
    pushed the entries of the images before it and none after. *)
Theorem handleCompress_outcomes :
  forall settings imageFiles,
    match handleCompress settings imageFiles with
    | NoImages => imageFiles = []
    | Complete compressedFiles =>
        imageFiles <> [] /\
        Forall2 (pushedFor settings) imageFiles compressedFiles
    | Suspended compressedFiles notReached =>
        exists before stuck r,
          imageFiles = before ++ stuck :: notReached /\
          Forall2 (pushedFor settings) before compressedFiles /\
          compressImage (canvasEncoder stuck) settings = Some r /\
          promise r = Pending
    | Diverged => False
    end.
Proof.
  intros settings imageFiles.
  destruct imageFiles as [|imageFile rest]; [reflexivity|].
  unfold handleCompress.
  pose proof (compressLoop_outcomes settings (imageFile :: rest) []) as H.
  destruct (compressLoop settings (imageFile :: rest) []) as [|cs|cs nr|];
    try contradiction.
  - destruct H as (pushed & -> & Hall). split; [discriminate | exact Hall].
  - destruct H as (before & stuck & pushed & r & Hfiles & -> & Hall & Hr & Hp).
    exists before, stuck, r. repeat split; assumption.
Qed.

(** X4.  A non-empty batch is completed exactly when the search of
    every image resolves; the list it is completed with has one entry
    per image. *)
Theorem handleCompress_completes :
  forall settings imageFiles,
    imageFiles <> [] ->
    ((exists compressedFiles,
         handleCompress settings imageFiles = Complete compressedFiles) <->
     Forall (fun imageFile =>
               exists r b,
                 compressImage (canvasEncoder imageFile) settings = Some r /\
                 promise r = Resolved b) imageFiles) /\
    (forall compressedFiles,
        handleCompress settings imageFiles = Complete compressedFiles ->
        length compressedFiles = length imageFiles).
Proof.
  intros settings imageFiles Hne.
  pose proof (compressLoop_outcomes settings imageFiles []) as Hloop.
  assert (Hhc : handleCompress settings imageFiles =
                compressLoop settings imageFiles []).
  { destruct imageFiles; [contradiction | reflexivity]. }
  rewrite Hhc. split.
  - split.
    + intros [cs Hcs]. rewrite Hcs in Hloop.
      destruct Hloop as (pushed & _ & Hall).
      clear Hcs Hhc Hne.
      induction Hall as [|f c fs cs' (_ & _ & r & b & Hr & Hp & _) _ IH];
        constructor; [exists r, b; split; assumption | exact IH].
    + intros Hall.
      destruct (compressLoop settings imageFiles []) as [|cs|cs nr|];
        try contradiction; [exists cs; reflexivity|].
      destruct Hloop as (before & stuck & pushed & r & -> & _ & _ & Hr & Hp).
      apply Forall_app in Hall as [_ Hall].
      inversion Hall as [|? ? (r' & b & Hr' & Hp') _]; subst.
      rewrite Hr in Hr'. inversion Hr'; subst r'.
      rewrite Hp in Hp'. discriminate Hp'.
  - intros cs Hcs. rewrite Hcs in Hloop.
    destruct Hloop as (pushed & -> & Hf2).
    cbn [app]. symmetry. eapply Forall2_length. exact Hf2.
Qed.

Lemma handleCompress_completes_witness :
  exists compressedFiles,
    handleCompress target100 [second; second] = Complete compressedFiles.
Proof.
  apply (proj1 (handleCompress_completes target100 [second; second]
                  ltac:(discriminate))).
  repeat constructor;
    (eexists; eexists; split; [vm_compute; reflexivity | reflexivity]).
Defined.

End SearchBounds.

(* ================================================================= *)
(** * Further properties of the crop rectangle *)

(** Names every half [t / 2] of the goal and of the hypotheses and keeps
    [2 * (t / 2) == t] for it. *)
Ltac halves :=
  repeat match goal with
  | |- context [?t / 2] =>
      let half := fresh "half" in
      assert (2 * (t / 2) == t) by field;
      set (half := t / 2) in *; clearbody half
  | _ : context [?t / 2] |- _ =>
      let half := fresh "half" in
      assert (2 * (t / 2) == t) by field;
      set (half := t / 2) in *; clearbody half
  end.

Section HitTest.

Import Cropper CropInputs Invariants CropperDraw.
Local Open Scope Q_scope.

Lemma leb_spec a b : BoolSpec (a <= b) (b < a) (leb a b).
Proof.
  unfold leb. destruct (Qle_bool a b) eqn:E; constructor.
  - apply Qle_bool_iff, E.
  - apply Qnot_le_lt. intros H. apply Qle_bool_iff in H. congruence.
Qed.

Lemma geb_spec a b : BoolSpec (b <= a) (a < b) (geb a b).
Proof.
  unfold geb. destruct (Qle_bool b a) eqn:E; constructor.
  - apply Qle_bool_iff, E.
  - apply Qnot_le_lt. intros H. apply Qle_bool_iff in H. congruence.
Qed.

(** Decides the comparisons of [getResizeHandle] one after the other and
    drops the cases the arithmetic excludes. *)
Ltac hit_cases :=
  repeat (match goal with
          | |- context [leb ?a ?b] => destruct (leb_spec a b)
          | |- context [geb ?a ?b] => destruct (geb_spec a b)
          end; cbn [andb]; try (exfalso; lra)).

(** A point misses every handle exactly when it is farther than
    [handleSize] from the rectangle or deeper than [handleSize] inside
    it. *)
Lemma hit_test_band st mx my :
  0 <= width (cropArea st) -> 0 <= height (cropArea st) ->
  getResizeHandle st mx my <> None <->
  (x (cropArea st) - getHandleSize (isTouch st) <= mx
     <= x (cropArea st) + width (cropArea st) + getHandleSize (isTouch st) /\
   y (cropArea st) - getHandleSize (isTouch st) <= my
     <= y (cropArea st) + height (cropArea st) + getHandleSize (isTouch st)) /\
  ~ (x (cropArea st) + getHandleSize (isTouch st) < mx
       < x (cropArea st) + width (cropArea st) - getHandleSize (isTouch st) /\
     y (cropArea st) + getHandleSize (isTouch st) < my
       < y (cropArea st) + height (cropArea st) - getHandleSize (isTouch st)).
Proof.
  intros Hwide Hhigh. unfold getResizeHandle.
  destruct (isTouch st); unfold getHandleSize;
    hit_cases;
    (split;
     [ intros Hsome;
       first [ exfalso; apply Hsome; reflexivity
             | split; [lra | intros [? ?]; lra] ]
     | intros [[? ?] Hnot];
       first [ discriminate
             | exfalso; apply Hnot; lra ] ]).
Qed.

(** X5.  The hit-test of the resize handles: a point gets a handle
    exactly when it lies within [handleSize] of the rectangle (in the
    rectangle grown by [handleSize] on every side) and not strictly inside
    the rectangle shrunk by [handleSize] on every side. *)
Theorem getResizeHandle_band :
  forall st mx my,
    0 <= width (cropArea st) -> 0 <= height (cropArea st) ->
    let handleSize := getHandleSize (isTouch st) in
    let cx := x (cropArea st) in
    let cy := y (cropArea st) in
    let w := width (cropArea st) in
    let h := height (cropArea st) in
    getResizeHandle st mx my <> None <->
    (cx - handleSize <= mx <= cx + w + handleSize /\
     cy - handleSize <= my <= cy + h + handleSize) /\
    ~ (cx + handleSize < mx < cx + w - handleSize /\
       cy + handleSize < my < cy + h - handleSize).
Proof.
  intros st mx my Hwide Hhigh. cbv zeta.
  apply hit_test_band; assumption.
Qed.

Lemma getResizeHandle_band_witness :
  getResizeHandle loaded 210 200 <> None <->
  (200 - 12 <= 210 <= 200 + 200 + 12 /\
   100 - 12 <= 200 <= 100 + 200 + 12) /\
  ~ (200 + 12 < 210 < 200 + 200 - 12 /\
     100 + 12 < 200 < 100 + 200 - 12).
Proof.
  assert (Hw : 0 <= width (cropArea loaded)) by (intros H; discriminate H).
  assert (Hh : 0 <= height (cropArea loaded)) by (intros H; discriminate H).
  exact (getResizeHandle_band loaded 210 200 Hw Hh).
Defined.



(** X17.  What a press starts.  With no gesture under way, a press
    within [handleSize] of the rectangle's border starts a resize, a
    press deeper than [handleSize] inside the rectangle starts a drag, and
    any other press starts nothing; never both.  A rectangle that is not
    more than two handle sizes wide, or high, therefore cannot be
    dragged. *)
Theorem press_selects_mode :
  forall st pos,
    isDragging st = false -> isResizing st = false ->
    0 <= width (cropArea st) -> 0 <= height (cropArea st) ->
    let handleSize := getHandleSize (isTouch st) in
    let cx := x (cropArea st) in
    let cy := y (cropArea st) in
    let w := width (cropArea st) in
    let h := height (cropArea st) in
    let pressed := handleMouseDown st pos in
    (isResizing pressed = true <->
     (cx - handleSize <= px pos <= cx + w + handleSize /\
      cy - handleSize <= py pos <= cy + h + handleSize) /\
     ~ (cx + handleSize < px pos < cx + w - handleSize /\
        cy + handleSize < py pos < cy + h - handleSize)) /\
    (isResizing pressed = true ->
     resizeHandle pressed = getResizeHandle st (px pos) (py pos)) /\
    (isDragging pressed = true <->
     cx + handleSize < px pos < cx + w - handleSize /\
     cy + handleSize < py pos < cy + h - handleSize) /\
    (isDragging pressed = true -> isResizing pressed = false) /\
    (w <= 2 * handleSize \/ h <= 2 * handleSize ->
     isDragging pressed = false) /\
    dragStart pressed = pos.
Proof.
  intros st pos Hd Hr Hwide Hhigh. cbv zeta.
  pose proof (hit_test_band st (px pos) (py pos) Hwide Hhigh) as Hband.
  assert (Hhs : 0 < getHandleSize (isTouch st))
    by (destruct (isTouch st); reflexivity).
  unfold handleMouseDown.
  destruct (getResizeHandle st (px pos) (py pos)) as [handle|] eqn:Hhit.
  - cbn [setDragStart setMode isResizing isDragging resizeHandle dragStart].
    rewrite Hd.
    assert (Hin : Some handle <> None) by discriminate.
    apply Hband in Hin. destruct Hin as [Hbox Hcore].
    split; [split; [intros _; split; assumption | reflexivity]|].
    split; [reflexivity|].
    split; [split; [intros H; discriminate H | intros H; elim (Hcore H)]|].
    split; [intros H; discriminate H|].
    split; reflexivity.
  - assert (Hnoband :
      ~ ((x (cropArea st) - getHandleSize (isTouch st) <= px pos
            <= x (cropArea st) + width (cropArea st)
               + getHandleSize (isTouch st) /\
          y (cropArea st) - getHandleSize (isTouch st) <= py pos
            <= y (cropArea st) + height (cropArea st)
               + getHandleSize (isTouch st)) /\
         ~ (x (cropArea st) + getHandleSize (isTouch st) < px pos
              < x (cropArea st) + width (cropArea st)
                - getHandleSize (isTouch st) /\
            y (cropArea st) + getHandleSize (isTouch st) < py pos
              < y (cropArea st) + height (cropArea st)
                - getHandleSize (isTouch st)))).
    { intros H. apply Hband in H. apply H. reflexivity. }
    clear Hband Hhit.
    set (hs := getHandleSize (isTouch st)) in *. clearbody hs.
    assert (Hdec :
      (x (cropArea st) + hs < px pos
         < x (cropArea st) + width (cropArea st) - hs /\
       y (cropArea st) + hs < py pos
         < y (cropArea st) + height (cropArea st) - hs) \/
      ~ (x (cropArea st) + hs < px pos
           < x (cropArea st) + width (cropArea st) - hs /\
         y (cropArea st) + hs < py pos
           < y (cropArea st) + height (cropArea st) - hs)).
    { destruct (Qlt_le_dec (x (cropArea st) + hs) (px pos));
        destruct (Qlt_le_dec (px pos)
                    (x (cropArea st) + width (cropArea st) - hs));
        destruct (Qlt_le_dec (y (cropArea st) + hs) (py pos));
        destruct (Qlt_le_dec (py pos)
                    (y (cropArea st) + height (cropArea st) - hs));
        first [ left; repeat split; assumption
              | right; intros [[? ?] [? ?]]; lra ]. }
    destruct Hdec as [Hcore | Hncore];
      destruct (geb_spec (px pos) (x (cropArea st)));
      destruct (leb_spec (px pos) (x (cropArea st) + width (cropArea st)));
      destruct (geb_spec (py pos) (y (cropArea st)));
      destruct (leb_spec (py pos) (y (cropArea st) + height (cropArea st)));
      try (exfalso; lra);
      try (exfalso; apply Hnoband; split; [lra | exact Hncore]);
      cbn [andb setDragStart setMode isResizing isDragging resizeHandle
           dragStart];
      rewrite ?Hd, ?Hr.
    all: split; [split; [intros Hgoal; discriminate Hgoal
                        | intros Hgoal; elim (Hnoband Hgoal)]|].
    all: split; [intros Hgoal; discriminate Hgoal|].
    all: split;
           [first [ split; [intros _; exact Hcore | reflexivity]
                  | split; [intros Hgoal; discriminate Hgoal
                           | intros Hgoal; elim (Hncore Hgoal)] ]|].
    all: split; [intros _; reflexivity|].
    all: split; [|reflexivity].
    all: first [ intros _; reflexivity | intros [Hgoal | Hgoal]; exfalso; lra ].
Qed.

Lemma press_selects_mode_witness :
  isDragging (handleMouseDown loaded {| px := 300; py := 200 |}) = true <->
  200 + 12 < 300 < 200 + 200 - 12 /\ 100 + 12 < 200 < 100 + 200 - 12.
Proof.
  assert (Hwide : 0 <= width (cropArea loaded))
    by (intros H; discriminate H).
  assert (Hhigh : 0 <= height (cropArea loaded))
    by (intros H; discriminate H).
  exact (proj1 (proj2 (proj2
           (press_selects_mode loaded {| px := 300; py := 200 |}
              eq_refl eq_refl Hwide Hhigh)))).
Defined.

End HitTest.

Section Gestures.

Import Cropper CropInputs Invariants CropperDraw.
Local Open Scope Q_scope.

(** X7.  A resize whose pointer does not carry the west edge left of 0
    nor the north edge above 0 does what the handle promises: on a
    rectangle of at least 50 x 50 inside the canvas the result is again
    at least 50 x 50 and inside the canvas, the edges the handle does not
    move stay where they were, and a side the handle does not touch
    keeps its position and its length. *)
Theorem resize_within_canvas :
  forall handle deltaX deltaY cw ch prev,
    sized prev -> inside cw ch prev ->
    (movesWest handle = true -> 0 <= x prev + deltaX) ->
    (movesNorth handle = true -> 0 <= y prev + deltaY) ->
    let next := resize handle deltaX deltaY cw ch prev in
    sized next /\ inside cw ch next /\
    (movesWest handle = true ->
     x next + width next == x prev + width prev) /\
    (movesNorth handle = true ->
     y next + height next == y prev + height prev) /\
    (movesWest handle = false -> x next = x prev) /\
    (movesNorth handle = false -> y next = y prev) /\
    (movesWest handle = false -> movesEast handle = false ->
     width next = width prev) /\
    (movesNorth handle = false -> movesSouth handle = false ->
     height next = height prev).
Proof.
  intros handle deltaX deltaY cw ch prev [Hwide Hhigh] (Hx & Hy & Hr & Hb)
         Hwest Hnorth next.
  subst next. unfold sized, inside.
  destruct handle; cbn [movesWest movesNorth movesEast movesSouth] in *;
    cbn [resize x y width height];
    try specialize (Hwest eq_refl); try specialize (Hnorth eq_refl);
    repeat split; intros; try reflexivity; try discriminate;
    minmax; lra.
Qed.

Lemma resize_within_canvas_witness :
  x (resize Hnw (0 - 150) 30 600 400 (cropArea loaded))
  + width (resize Hnw (0 - 150) 30 600 400 (cropArea loaded))
  == x (cropArea loaded) + width (cropArea loaded).
Proof.
  assert (Hs : sized (cropArea loaded))
    by (split; intros H; discriminate H).
  assert (Hi : inside 600 400 (cropArea loaded))
    by (repeat split; intros H; discriminate H).
  assert (Hwest : movesWest Hnw = true ->
                  0 <= x (cropArea loaded) + (0 - 150))
    by (intros _ H; discriminate H).
  assert (Hnorth : movesNorth Hnw = true ->
                   0 <= y (cropArea loaded) + 30)
    by (intros _ H; discriminate H).
  exact (proj1 (proj2 (proj2
           (resize_within_canvas Hnw (0 - 150) 30 600 400 (cropArea loaded)
              Hs Hi Hwest Hnorth))) eq_refl).
Defined.

(** The pointer handlers never touch the rotation or the image. *)
Lemma handleMouseMove_flags st pos :
  isDragging (handleMouseMove st pos) = isDragging st /\
  isResizing (handleMouseMove st pos) = isResizing st /\
  resizeHandle (handleMouseMove st pos) = resizeHandle st /\
  dragStart (handleMouseMove st pos) = pos /\
  canvasWidth (handleMouseMove st pos) = canvasWidth st /\
  canvasHeight (handleMouseMove st pos) = canvasHeight st.
Proof.
  unfold handleMouseMove.
  destruct (isResizing st) eqn:E1, (resizeHandle st) eqn:E2,
           (isDragging st) eqn:E3;
    cbn; repeat split; congruence.
Qed.

(** X8.  The crop rectangle moves only while the pointer is down: a
    press, a release, a rotation leave it as it is, and after a release
    no sequence of pointer moves changes it. *)
Theorem cropArea_changes_only_while_pressed :
  (forall st ev,
      isMove ev = false -> ev <> Reset ->
      cropArea (handle st ev) = cropArea st) /\
  (forall st evs,
      Forall (fun ev => isMove ev = true) evs ->
      cropArea (run (handleMouseUp st) evs) = cropArea st).
Proof.
  split.
  - intros st ev Hmove Hreset.
    destruct ev as [pos|pos| | |touches|touches| | | | | ];
      cbn [handle isMove] in *; try reflexivity; try discriminate.
    + apply handleMouseDown_cropArea.
    + destruct touches as [|touch ?]; cbn [setIsTouch cropArea];
        [reflexivity | apply handleMouseDown_cropArea].
    + contradiction.
  - intros st evs Hall.
    assert (Hidle : forall evs' st',
      Forall (fun ev => isMove ev = true) evs' ->
      isDragging st' = false -> isResizing st' = false ->
      cropArea (run st' evs') = cropArea st').
    { clear. unfold run.
      induction evs' as [|ev evs' IH]; intros st' Hall Hd Hr; [reflexivity|].
      inversion Hall as [|? ? Hev Hrest]; subst.
      cbn [fold_left].
      assert (Hstep : cropArea (handle st' ev) = cropArea st' /\
                      isDragging (handle st' ev) = false /\
                      isResizing (handle st' ev) = false).
      { destruct ev as [pos|pos| | |touches|touches| | | | | ];
          cbn [isMove] in Hev; try discriminate; cbn [handle].
        - unfold handleMouseMove. rewrite Hd, Hr. repeat split; assumption.
        - destruct touches as [|touch ?]; [repeat split; assumption|].
          unfold handleMouseMove. rewrite Hd, Hr. repeat split; assumption. }
      destruct Hstep as (Hc & Hd' & Hr').
      rewrite (IH _ Hrest Hd' Hr'). exact Hc. }
    apply (Hidle evs (handleMouseUp st) Hall); reflexivity.
Qed.

Lemma cropArea_changes_only_while_pressed_witness :
  cropArea (run (handleMouseUp dragging)
                [MouseMove far; TouchMove [far]; MouseMove {| px := 3; py := 4 |}])
  = cropArea dragging.
Proof.
  apply (proj2 cropArea_changes_only_while_pressed dragging).
  repeat constructor.
Defined.

Lemma last_cons (A : Type) (a : A) l :
  forall d, List.last (a :: l) d = List.last l a.
Proof.
  revert a. induction l as [|b l IH]; intros a d; [reflexivity|].
  change (List.last (a :: b :: l) d) with (List.last (b :: l) d).
  rewrite (IH b d), (IH b a). reflexivity.
Qed.

(** X9.  A drag adds up.  While dragging a rectangle inside the canvas,
    a sequence of pointer moves none of which pushes the rectangle
    against the canvas border moves it by the total displacement of the
    pointer, from the press to the last position, and keeps its size. *)
Theorem drag_follows_pointer :
  forall moves st,
    isDragging st = true -> isResizing st = false ->
    (forall pos, In pos moves ->
       0 <= x (cropArea st) + (px pos - px (dragStart st))
         <= canvasWidth st - width (cropArea st) /\
       0 <= y (cropArea st) + (py pos - py (dragStart st))
         <= canvasHeight st - height (cropArea st)) ->
    let final := run st (map MouseMove moves) in
    let last := List.last moves (dragStart st) in
    x (cropArea final) == x (cropArea st) + (px last - px (dragStart st)) /\
    y (cropArea final) == y (cropArea st) + (py last - py (dragStart st)) /\
    width (cropArea final) = width (cropArea st) /\
    height (cropArea final) = height (cropArea st) /\
    dragStart final = last.
Proof.
  unfold run.
  induction moves as [|pos moves IH]; intros st Hd Hr Hfree; cbv zeta.
  - cbn [map fold_left List.last]. repeat split; try reflexivity; lra.
  - cbn [map fold_left handle].
    pose proof (handleMouseMove_flags st pos)
      as (Hd' & Hr' & _ & Hstart & Hcw & Hch).
    assert (Hstep :
      x (cropArea (handleMouseMove st pos))
        == x (cropArea st) + (px pos - px (dragStart st)) /\
      y (cropArea (handleMouseMove st pos))
        == y (cropArea st) + (py pos - py (dragStart st)) /\
      width (cropArea (handleMouseMove st pos)) = width (cropArea st) /\
      height (cropArea (handleMouseMove st pos)) = height (cropArea st)).
    { destruct (Hfree pos (or_introl eq_refl)) as [Hx Hy].
      unfold handleMouseMove. rewrite Hd, Hr.
      cbn [setDragStart setCropArea cropArea drag x y width height].
      repeat split; try reflexivity; minmax; lra. }
    destruct Hstep as (Hx1 & Hy1 & Hw1 & Hh1).
    specialize (IH (handleMouseMove st pos)).
    rewrite Hd', Hr', Hstart, Hcw, Hch, Hw1, Hh1 in IH.
    specialize (IH Hd Hr).
    assert (Hfree' : forall pos0, In pos0 moves ->
       0 <= x (cropArea (handleMouseMove st pos)) + (px pos0 - px pos)
         <= canvasWidth st - width (cropArea st) /\
       0 <= y (cropArea (handleMouseMove st pos)) + (py pos0 - py pos)
         <= canvasHeight st - height (cropArea st)).
    { intros pos0 Hin. destruct (Hfree pos0 (or_intror Hin)) as [Hx Hy].
      split; lra. }
    specialize (IH Hfree'). cbv zeta in IH.
    destruct IH as (Hx2 & Hy2 & Hw2 & Hh2 & Hs2).
    assert (Hlast : List.last (pos :: moves) (dragStart st)
                    = List.last moves pos).
    { apply last_cons. }
    rewrite Hlast.
    repeat split; try assumption; lra.
Qed.

Lemma drag_follows_pointer_witness :
  x (cropArea (run dragging
                   (map MouseMove [{| px := 350; py := 220 |};
                                   {| px := 250; py := 150 |}])))
  == x (cropArea dragging) + (250 - 300).
Proof.
  assert (Hfree : forall pos,
     In pos [{| px := 350; py := 220 |}; {| px := 250; py := 150 |}] ->
     0 <= x (cropArea dragging) + (px pos - px (dragStart dragging))
       <= canvasWidth dragging - width (cropArea dragging) /\
     0 <= y (cropArea dragging) + (py pos - py (dragStart dragging))
       <= canvasHeight dragging - height (cropArea dragging)).
  { intros pos [<- | [<- | []]]; vm_compute;
      repeat split; intros H; discriminate H. }
  exact (proj1 (drag_follows_pointer
                  [{| px := 350; py := 220 |}; {| px := 250; py := 150 |}]
                  dragging eq_refl eq_refl Hfree)).
Defined.

End Gestures.

Section Dialog.

Import Cropper CropInputs Invariants CropperDraw.
Local Open Scope Q_scope.

Lemma handle_rotation st ev :
  ev <> RotateLeft -> ev <> RotateRight ->
  rotation (handle st ev) = rotation st.
Proof.
  intros Hl Hr.
  destruct ev as [pos|pos| | |touches|touches| | | | | ];
    cbn [handle]; try reflexivity; try contradiction.
  - unfold handleMouseDown.
    destruct (getResizeHandle st (px pos) (py pos)); [reflexivity|].
    match goal with |- context [if ?c then _ else _] => destruct c end;
      reflexivity.
  - unfold handleMouseMove.
    destruct (isResizing st), (resizeHandle st), (isDragging st); reflexivity.
  - destruct touches as [|touch ?]; [reflexivity|].
    unfold handleMouseDown.
    destruct (getResizeHandle st (px touch) (py touch)); [reflexivity|].
    match goal with |- context [if ?c then _ else _] => destruct c end;
      reflexivity.
  - destruct touches as [|touch ?]; [reflexivity|].
    unfold handleMouseMove.
    destruct (isResizing st), (resizeHandle st), (isDragging st); reflexivity.
Qed.

Lemma handle_quarterTurn st ev :
  quarterTurn (rotation st) -> quarterTurn (rotation (handle st ev)).
Proof.
  intros Hq.
  destruct ev as [pos|pos| | |touches|touches| | | | | ];
    try (rewrite handle_rotation; [exact Hq | discriminate | discriminate]).
  - cbn [handle setRotation rotation].
    destruct Hq as [-> | [-> | [-> | ->]]]; vm_compute; tauto.
  - cbn [handle setRotation rotation].
    destruct Hq as [-> | [-> | [-> | ->]]]; vm_compute; tauto.
Qed.

(** X10.  The rotation is always a quarter turn: from the opened dialog,
    whatever the events, it is 0, 90, 180 or 270, so the second cropper
    always finds a case for it.  On quarter turns "Left" undoes "Right",
    "Right" undoes "Left", and four times "Right" is a full turn. *)
Theorem rotation_quarter_turns :
  (forall w h evs,
      quarterTurn (rotation (run (onload initialState w h) evs)) /\
      Cropper2.handleCrop (run (onload initialState w h) evs) <> None) /\
  (forall st,
      quarterTurn (rotation st) ->
      rotation (run st [RotateRight; RotateLeft]) = rotation st /\
      rotation (run st [RotateLeft; RotateRight]) = rotation st /\
      rotation (run st [RotateRight; RotateRight; RotateRight; RotateRight])
        = rotation st).
Proof.
  split.
  - intros w h evs.
    assert (Hq : quarterTurn (rotation (run (onload initialState w h) evs))).
    { assert (Hgen : forall st, quarterTurn (rotation st) ->
                                quarterTurn (rotation (run st evs))).
      { unfold run. induction evs as [|ev evs IH]; intros st Hst;
          [exact Hst|].
        cbn [fold_left]. apply IH, handle_quarterTurn, Hst. }
      apply Hgen. left. reflexivity. }
    split; [exact Hq|].
    unfold Cropper2.handleCrop.
    destruct Hq as [-> | [-> | [-> | ->]]]; cbn [Z.eqb Pos.eqb]; discriminate.
  - intros st Hq. unfold run.
    cbn [fold_left handle setRotation rotation].
    destruct Hq as [-> | [-> | [-> | ->]]]; repeat split; reflexivity.
Qed.

Lemma rotation_quarter_turns_witness :
  rotation (run (setRotation loaded 270) [RotateRight; RotateLeft]) = 270%Z.
Proof.
  apply (proj2 rotation_quarter_turns (setRotation loaded 270)).
  right; right; right. reflexivity.
Defined.

(** X11.  The rectangle set when the image loads, and by "Reset", is a
    square centred on the canvas and inside it; its side is the smallest
    of 200, half the canvas width and half the canvas height. *)
Theorem initialCrop_centred :
  forall cw ch,
    0 <= cw -> 0 <= ch ->
    let rect := initialCrop cw ch in
    width rect = height rect /\
    inside cw ch rect /\
    2 * x rect + width rect == cw /\
    2 * y rect + height rect == ch /\
    width rect <= 200 /\ 2 * width rect <= cw /\ 2 * width rect <= ch /\
    (width rect == 200 \/ 2 * width rect == cw \/ 2 * width rect == ch).
Proof.
  intros cw ch Hcw Hch rect. subst rect.
  unfold inside, initialCrop, initialSize. cbn [x y width height].
  split; [reflexivity|].
  halves. minmax. repeat split; lra.
Qed.

Lemma initialCrop_centred_witness :
  2 * x (initialCrop 600 400) + width (initialCrop 600 400) == 600.
Proof.
  assert (Hcw : 0 <= 600) by (intros H; discriminate H).
  assert (Hch : 0 <= 400) by (intros H; discriminate H).
  exact (proj1 (proj2 (proj2 (initialCrop_centred 600 400 Hcw Hch)))).
Defined.

End Dialog.

(* ================================================================= *)
(** * Properties of the background remover *)

Section BackgroundRemoverFacts.

Import Cropper BackgroundRemover.
Local Open Scope Q_scope.

(** The integer between [x - 1] and [x] is the floor of [x]. *)
Lemma Qfloor_unique x z :
  inject_Z z <= x -> x < inject_Z z + 1 -> Qfloor x = z.
Proof.
  intros Hle Hlt.
  pose proof (Qfloor_le x) as Hf1.
  pose proof (Qlt_floor x) as Hf2.
  rewrite inject_Z_plus in Hf2.
  assert (H1 : inject_Z (Qfloor x) < inject_Z (z + 1))
    by (rewrite inject_Z_plus; change (inject_Z 1) with 1 in *; lra).
  assert (H2 : inject_Z z < inject_Z (Qfloor x + 1))
    by (rewrite inject_Z_plus; change (inject_Z 1) with 1 in *; lra).
  rewrite <- Zlt_Qlt in H1, H2. lia.
Qed.

Lemma round_bounds v : v - (1 # 2) < round v /\ round v <= v + (1 # 2).
Proof.
  unfold round.
  pose proof (Qfloor_le (v + (1 # 2))) as Hf1.
  pose proof (Qlt_floor (v + (1 # 2))) as Hf2.
  rewrite inject_Z_plus in Hf2. change (inject_Z 1) with 1 in Hf2.
  split; lra.
Qed.

Lemma round_zero v : 0 <= v -> (round v == 0 <-> v < 1 # 2).
Proof.
  intros Hv. split.
  - intros H0. pose proof (round_bounds v) as [Hlo _]. lra.
  - intros Hhalf. unfold round.
    rewrite (Qfloor_unique (v + (1 # 2)) 0); [reflexivity | |];
      change (inject_Z 0) with 0; lra.
Qed.

Lemma round_le v n : v <= inject_Z n -> round v <= inject_Z n.
Proof.
  intros Hv. unfold round. rewrite <- Zle_Qle.
  pose proof (Qfloor_le (v + (1 # 2))) as Hf.
  assert (H : inject_Z (Qfloor (v + (1 # 2))) < inject_Z (n + 1))
    by (rewrite inject_Z_plus; change (inject_Z 1) with 1; lra).
  rewrite <- Zlt_Qlt in H. lia.
Qed.

Lemma round_ge v n : inject_Z n <= v -> inject_Z n <= round v.
Proof.
  intros Hv. unfold round. rewrite <- Zle_Qle.
  pose proof (Qlt_floor (v + (1 # 2))) as Hf.
  assert (H : inject_Z n < inject_Z (Qfloor (v + (1 # 2)) + 1)) by lra.
  rewrite <- Zlt_Qlt in H. lia.
Qed.

Lemma round_le_1024 v : v <= 1024 -> round v <= 1024.
Proof. exact (round_le v 1024). Qed.

Lemma round_nonneg v : 0 <= v -> 0 <= round v.
Proof. exact (round_ge v 0). Qed.

Lemma Qdiv_lt_iff a b c : 0 < c -> (a / c < b <-> a < b * c).
Proof.
  intros Hc. split.
  - intros H. assert (Ha : a == a / c * c) by (field; lra).
    rewrite Ha. apply Qmult_lt_r; assumption.
  - apply Qlt_shift_div_r. exact Hc.
Qed.

Lemma Qdiv_le_iff a b c : 0 < c -> (a / c <= b <-> a <= b * c).
Proof.
  intros Hc. split.
  - intros H. assert (Ha : a == a / c * c) by (field; lra).
    rewrite Ha. apply Qmult_le_r; assumption.
  - apply Qle_shift_div_r. exact Hc.
Qed.

(** X13.  [resizeImageIfNeeded] on an image with positive sides: it
    reports a resize exactly when a side exceeds 1024; otherwise the
    canvas has the size of the image.  After a resize the longer side is
    1024 and the other is the proportional length rounded to a whole
    number, between 0 and 1024; it is 0, an empty canvas, exactly when the
    image is more than 2048 times longer than it is wide (or the
    reverse). *)
Theorem resizeImageIfNeeded_sizes :
  forall w h,
    0 < w -> 0 < h ->
    let resized := fst (resizeImageIfNeeded w h) in
    let cw := fst (snd (resizeImageIfNeeded w h)) in
    let ch := snd (snd (resizeImageIfNeeded w h)) in
    (resized = true <-> 1024 < w \/ 1024 < h) /\
    (resized = false -> cw = w /\ ch = h) /\
    (resized = true ->
     0 <= cw <= 1024 /\ 0 <= ch <= 1024 /\
     (h < w ->
      cw == 1024 /\ ch = round (h * 1024 / w) /\
      h * 1024 / w - (1 # 2) < ch <= h * 1024 / w + (1 # 2) /\
      (ch == 0 <-> 2048 * h < w)) /\
     (w <= h ->
      ch == 1024 /\ cw = round (w * 1024 / h) /\
      w * 1024 / h - (1 # 2) < cw <= w * 1024 / h + (1 # 2) /\
      (cw == 0 <-> 2048 * w < h))).
Proof.
  intros w h Hw Hh resized cw ch. subst resized cw ch.
  unfold resizeImageIfNeeded, MAX_IMAGE_DIMENSION.
  destruct (Rescale.gt w 1024) eqn:Ew; destruct (Rescale.gt h 1024) eqn:Eh;
    cbn [orb]; try destruct (Rescale.gt w h) eqn:Ewh; cbn [fst snd];
    rewrite ?gt_true, ?gt_false in *.
  all: split;
         [first [ split; [intros _; lra | intros _; reflexivity]
                | split; [intros H; discriminate H | intros [H|H]; lra] ]|].
  all: split; [intros H; first [discriminate H | split; reflexivity]|].
  all: intros Hres; try discriminate Hres.
  all: try (assert (Hv0 : 0 <= h * 1024 / w)
              by (apply Qle_shift_div_l; lra);
            assert (Hv1 : h * 1024 / w <= 1024)
              by (apply Qle_shift_div_r; lra);
            assert (Hhalf : h * 1024 / w < 1 # 2 <-> 2048 * h < w)
              by (rewrite Qdiv_lt_iff by lra; split; intros; lra);
            pose proof (round_bounds (h * 1024 / w)) as [Hb1 Hb2];
            pose proof (round_zero (h * 1024 / w) Hv0) as Hz;
            pose proof (round_le_1024 _ Hv1) as Hr1;
            pose proof (round_nonneg _ Hv0) as Hr0;
            repeat split; intros; try lra; try reflexivity;
            first [ apply Hhalf, Hz; assumption
                  | apply Hz, Hhalf; assumption ]).
  all: assert (Hv0 : 0 <= w * 1024 / h) by (apply Qle_shift_div_l; lra);
       assert (Hv1 : w * 1024 / h <= 1024) by (apply Qle_shift_div_r; lra);
       assert (Hhalf : w * 1024 / h < 1 # 2 <-> 2048 * w < h)
         by (rewrite Qdiv_lt_iff by lra; split; intros; lra);
       pose proof (round_bounds (w * 1024 / h)) as [Hb1 Hb2];
       pose proof (round_zero (w * 1024 / h) Hv0) as Hz;
       pose proof (round_le_1024 _ Hv1) as Hr1;
       pose proof (round_nonneg _ Hv0) as Hr0;
       repeat split; intros; try lra; try reflexivity;
       first [ apply Hhalf, Hz; assumption
             | apply Hz, Hhalf; assumption ].
Qed.

Lemma resizeImageIfNeeded_sizes_witness :
  fst (resizeImageIfNeeded 4000 1) = true /\
  snd (snd (resizeImageIfNeeded 4000 1)) == 0.
Proof.
  assert (Hw : 0 < 4000) by reflexivity.
  assert (Hh : 0 < 1) by reflexivity.
  destruct (resizeImageIfNeeded_sizes 4000 1 Hw Hh) as (Hres & _ & Hsz).
  assert (Hbig : fst (resizeImageIfNeeded 4000 1) = true)
    by (apply Hres; left; reflexivity).
  split; [exact Hbig|].
  destruct (Hsz Hbig) as (_ & _ & Hwide & _).
  destruct (Hwide eq_refl) as (_ & _ & _ & Hzero).
  apply Hzero. reflexivity.
Defined.

Lemma store_length data :
  forall i v, length (store data i v) = length data.
Proof.
  induction data as [|b rest IH]; intros [|i] v; cbn [store length];
    try reflexivity.
  rewrite IH. reflexivity.
Qed.

Lemma store_same data :
  forall i v, (i < length data)%nat ->
              nth_error (store data i v) i = Some (clampByte v).
Proof.
  induction data as [|b rest IH]; intros [|i] v Hi; cbn [length] in Hi;
    cbn [store nth_error]; try lia; [reflexivity|].
  apply IH. lia.
Qed.

Lemma store_other data :
  forall i j v, i <> j -> nth_error (store data i v) j = nth_error data j.
Proof.
  induction data as [|b rest IH]; intros [|i] [|j] v Hij;
    cbn [store nth_error]; try reflexivity; try contradiction.
  apply IH. congruence.
Qed.

Lemma applyMaskFrom_length mask :
  forall i data, length (applyMaskFrom i mask data) = length data.
Proof.
  induction mask as [|value rest IH]; intros i data; cbn [applyMaskFrom];
    [reflexivity|].
  rewrite IH. apply store_length.
Qed.

(** The loop started at pixel [i] leaves alone every byte that is not the
    alpha byte of a pixel [i], [i + 1], ..., [i + length mask - 1]. *)
Lemma applyMaskFrom_other mask :
  forall i data j,
    (forall p, (i <= p < i + length mask)%nat -> j <> (p * 4 + 3)%nat) ->
    nth_error (applyMaskFrom i mask data) j = nth_error data j.
Proof.
  induction mask as [|value rest IH]; intros i data j Hj;
    cbn [applyMaskFrom]; [reflexivity|].
  cbn [length] in Hj.
  rewrite IH by (intros p Hp; apply Hj; lia).
  apply store_other. intros Heq. apply (Hj i); [lia | congruence].
Qed.

Lemma applyMaskFrom_alpha mask :
  forall i data p,
    (i <= p < i + length mask)%nat ->
    (p * 4 + 3 < length data)%nat ->
    nth_error (applyMaskFrom i mask data) (p * 4 + 3) =
      Some (clampByte (alphaOf (nth (p - i) mask 0))).
Proof.
  induction mask as [|value rest IH]; intros i data p Hp Hlen;
    cbn [length] in Hp; [lia|].
  cbn [applyMaskFrom].
  destruct (Nat.eq_dec p i) as [-> | Hne].
  - rewrite applyMaskFrom_other by (intros q Hq; lia).
    rewrite Nat.sub_diag. cbn [nth]. apply store_same. exact Hlen.
  - rewrite IH by (rewrite ?store_length; lia).
    replace (p - i)%nat with (S (p - S i)) by lia. reflexivity.
Qed.

(** X14.  The mask loop of [removeBackground] writes alpha bytes only.
    It keeps the length of the pixel data and every red, green and blue
    byte; the alpha byte of pixel [p] becomes
    [round((1 - mask[p]) * 255)] clamped to 0..255 when the mask has an
    entry for [p], and is kept otherwise; mask entries beyond the last
    pixel are ignored.  For a mask value in [0, 1] nothing is clamped: the
    alpha lies in 0..255, 255 for the value 0 and 0 for the value 1. *)
Theorem applyMask_alpha_only :
  forall mask data,
    length (applyMask mask data) = length data /\
    (forall j, (j mod 4 <> 3)%nat ->
               nth_error (applyMask mask data) j = nth_error data j) /\
    (forall p, (p < length mask)%nat -> (p * 4 + 3 < length data)%nat ->
               nth_error (applyMask mask data) (p * 4 + 3)
               = Some (clampByte (alphaOf (nth p mask 0)))) /\
    (forall p, (length mask <= p)%nat ->
               nth_error (applyMask mask data) (p * 4 + 3)
               = nth_error data (p * 4 + 3)) /\
    (forall value, 0 <= value <= 1 ->
                   (0 <= alphaOf value <= 255)%Z /\
                   clampByte (alphaOf value) = alphaOf value) /\
    alphaOf 0 = 255%Z /\ alphaOf 1 = 0%Z.
Proof.
  intros mask data. unfold applyMask.
  split; [apply applyMaskFrom_length|].
  split.
  { intros j Hj. apply applyMaskFrom_other. intros p _ Heq.
    apply Hj. rewrite Heq.
    rewrite Nat.add_comm, Nat.Div0.mod_add. reflexivity. }
  split.
  { intros p Hp Hlen.
    rewrite (applyMaskFrom_alpha mask 0 data p) by lia.
    rewrite Nat.sub_0_r. reflexivity. }
  split.
  { intros p Hp. apply applyMaskFrom_other. intros q Hq. lia. }
  split; [|split; reflexivity].
  intros value [H0 H1]. unfold alphaOf.
  assert (Hr : (0 <= Qfloor ((1 - value) * 255 + (1 # 2)) <= 255)%Z).
  { split.
    - rewrite Zle_Qle. apply (round_ge ((1 - value) * 255) 0).
      change (inject_Z 0) with 0. lra.
    - rewrite Zle_Qle. apply (round_le ((1 - value) * 255) 255).
      change (inject_Z 255) with 255. lra. }
  split; [exact Hr|]. unfold clampByte. lia.
Qed.

Lemma applyMask_alpha_only_witness :
  nth_error (applyMask [1 # 2; 0] [10; 20; 30; 255; 40; 50; 60; 255]%Z) 3
  = Some (clampByte (alphaOf (1 # 2))) /\
  ((0 <= alphaOf (1 # 2) <= 255)%Z /\
   clampByte (alphaOf (1 # 2)) = alphaOf (1 # 2)).
Proof.
  destruct (applyMask_alpha_only [1 # 2; 0]
              [10; 20; 30; 255; 40; 50; 60; 255]%Z)
    as (_ & _ & Halpha & _ & Hrange & _).
  split.
  - apply (Halpha 0%nat); cbn [length]; lia.
  - apply Hrange. split; intros H; discriminate H.
Defined.

End BackgroundRemoverFacts.

(* ================================================================= *)
(** * Properties of the list of images *)

Section GalleryFacts.

Import Gallery.
Import Stdlib.Strings.Ascii Stdlib.Strings.String.
Local Open Scope nat_scope.

Lemma upload_fold fileList :
  forall newFiles,
    fold_left
      (fun newFiles f =>
         if isImage f then (newFiles ++ [uploaded f])%list else newFiles)
      fileList newFiles
    = (newFiles ++ map uploaded (filter isImage fileList))%list.
Proof.
  induction fileList as [|f rest IH]; intros newFiles; cbn [fold_left filter].
  - cbn [map]. rewrite app_nil_r. reflexivity.
  - rewrite IH. destruct (isImage f); [|reflexivity].
    cbn [map]. rewrite <- app_assoc. reflexivity.
Qed.

Lemma beforeDot_split s :
  s = (beforeDot s ++ fromDot s)%string /\
  hasDot (beforeDot s) = false /\
  (fromDot s = EmptyString \/ exists rest, fromDot s = String "."%char rest).
Proof.
  induction s as [|c rest (IH1 & IH2 & IH3)]; cbn [beforeDot fromDot].
  - repeat split. left. reflexivity.
  - destruct (Ascii.eqb c "."%char) eqn:Ec.
    + apply Ascii.eqb_eq in Ec. subst c.
      repeat split. right. exists rest. reflexivity.
    + cbn [append hasDot]. rewrite Ec, IH2. cbn [orb].
      split; [f_equal; exact IH1|]. split; [reflexivity | exact IH3].
Qed.

(** X15.  [handleFileUpload] keeps the images already listed, in place,
    and appends one entry for each file whose type starts with "image/",
    in the order of the selection; the other files, and a [null]
    selection, add nothing.  A new entry has the size of its file, no
    compressed data, and the file name "compressed_" followed by what
    precedes the first dot of the file's name: a dot-free prefix of the
    name, the whole name when it has no dot. *)
Theorem handleFileUpload_appends :
  forall prev,
    handleFileUpload None prev = prev /\
    forall fileList,
      handleFileUpload (Some fileList) prev
        = (prev ++ map uploaded (filter isImage fileList))%list /\
      map file (skipn (List.length prev) (handleFileUpload (Some fileList) prev))
        = filter isImage fileList /\
      firstn (List.length prev) (handleFileUpload (Some fileList) prev) = prev /\
      forall f,
        originalSize (uploaded f) = size f /\
        compressedBlob (uploaded f) = None /\
        compressedSize (uploaded f) = None /\
        exists stem,
          fileName (uploaded f) = Some ("compressed_" ++ stem)%string /\
          name f = (stem ++ fromDot (name f))%string /\
          hasDot stem = false /\
          (hasDot (name f) = false -> stem = name f).
Proof.
  intros prev. split; [reflexivity|]. intros fileList.
  assert (Heq : handleFileUpload (Some fileList) prev
                = (prev ++ map uploaded (filter isImage fileList))%list).
  { unfold handleFileUpload. rewrite upload_fold. reflexivity. }
  split; [exact Heq|]. rewrite Heq.
  split.
  { rewrite skipn_app, Nat.sub_diag, skipn_all. cbn [app skipn].
    rewrite map_map. cbn [uploaded file]. apply map_id. }
  split.
  { rewrite firstn_app, Nat.sub_diag, firstn_all. cbn [firstn].
    apply app_nil_r. }
  intros f. repeat split.
  exists (beforeDot (name f)).
  destruct (beforeDot_split (name f)) as (Hsplit & Hnodot & Hrest).
  repeat split; try assumption.
  intros Hname.
  destruct Hrest as [Hnil | [rest Hdot]].
  - rewrite Hnil in Hsplit. rewrite Hsplit at 2.
    clear. induction (beforeDot (name f)) as [|c r IH]; [reflexivity|].
    cbn [append]. f_equal. exact IH.
  - exfalso. rewrite Hsplit, Hdot in Hname. revert Hname. clear.
    induction (beforeDot (name f)) as [|c r IH]; cbn [append hasDot].
    + discriminate.
    + intros H. apply orb_false_iff in H as [_ H]. exact (IH H).
Qed.

Lemma mapAt_length replacement prev :
  forall index selected,
    List.length (mapAt index selected replacement prev) = List.length prev.
Proof.
  induction prev as [|f rest IH]; intros index selected; cbn [mapAt List.length];
    [reflexivity|].
  rewrite IH. reflexivity.
Qed.

Lemma mapAt_nth replacement prev :
  forall index selected j,
    nth_error (mapAt index selected replacement prev) j =
      match nth_error prev j with
      | Some f =>
          Some (if index + j =? selected then replacement f else f)
      | None => None
      end.
Proof.
  induction prev as [|f rest IH]; intros index selected [|j];
    cbn [mapAt nth_error]; try reflexivity.
  - rewrite Nat.add_0_r. reflexivity.
  - rewrite IH. replace (S index + j) with (index + S j) by lia.
    reflexivity.
Qed.

(** X16.  [handleCropComplete] replaces the selected image and nothing
    else.  With no selection the state is unchanged; with a selection
    that has no entry the handler fails.  Otherwise the list keeps its
    length and every other entry; the selected entry gets the cropped
    file, named "cropped_" followed by the old name, with the type and
    size of the blob, loses its compressed size and blob, and keeps its
    file name; and the selection is cleared. *)
Theorem handleCropComplete_replaces_selected :
  forall st croppedBlob,
    (selectedImageIndex st = None ->
     handleCropComplete st croppedBlob = Some st) /\
    (forall selected,
        selectedImageIndex st = Some selected ->
        List.length (imageFiles st) <= selected ->
        handleCropComplete st croppedBlob = None) /\
    (forall selected,
        selectedImageIndex st = Some selected ->
        selected < List.length (imageFiles st) ->
        exists st' current,
          handleCropComplete st croppedBlob = Some st' /\
          nth_error (imageFiles st) selected = Some current /\
          selectedImageIndex st' = None /\
          List.length (imageFiles st') = List.length (imageFiles st) /\
          (forall j, j <> selected ->
                     nth_error (imageFiles st') j
                     = nth_error (imageFiles st) j) /\
          nth_error (imageFiles st') selected =
            Some {| file := {| name := ("cropped_" ++ name (file current))%string;
                               type := blobType croppedBlob;
                               size := blobSize croppedBlob |};
                    preview := UrlOfBlob croppedBlob;
                    originalSize := blobSize croppedBlob;
                    compressedSize := None;
                    compressedBlob := None;
                    fileName := fileName current |}).
Proof.
  intros st croppedBlob. unfold handleCropComplete.
  split; [intros ->; reflexivity|].
  split.
  - intros selected -> Hout.
    apply nth_error_None in Hout. rewrite Hout. reflexivity.
  - intros selected -> Hin.
    destruct (nth_error (imageFiles st) selected) as [current|] eqn:Hcur;
      [|apply nth_error_None in Hcur; lia].
    eexists. exists current.
    split; [reflexivity|]. split; [reflexivity|].
    cbn [imageFiles selectedImageIndex].
    split; [reflexivity|]. split; [apply mapAt_length|].
    split.
    + intros j Hj. rewrite mapAt_nth. cbn [Nat.add].
      destruct (nth_error (imageFiles st) j); [|reflexivity].
      apply Nat.eqb_neq in Hj. rewrite Hj. reflexivity.
    + rewrite mapAt_nth, Hcur. cbn [Nat.add].
      rewrite Nat.eqb_refl. reflexivity.
Qed.

Lemma handleFileUpload_appends_witness :
  exists stem,
    fileName (uploaded {| name := "holiday"; type := "image/png"; size := 10 |})
      = Some ("compressed_" ++ stem)%string /\
    stem = "holiday"%string.
Proof.
  destruct (proj2 (handleFileUpload_appends []) [])
    as (_ & _ & _ & Hentry).
  destruct (Hentry {| name := "holiday"; type := "image/png"; size := 10 |})
    as (_ & _ & _ & stem & Hname & _ & _ & Hwhole).
  exists stem. split; [exact Hname|]. apply Hwhole. reflexivity.
Defined.

Lemma handleCropComplete_replaces_selected_witness :
  handleCropComplete
    {| imageFiles := [uploaded {| name := "a.png"; type := "image/png";
                                  size := 10 |}];
       selectedImageIndex := Some 3 |}
    {| blobType := "image/jpeg"; blobSize := 5 |} = None.
Proof.
  apply (proj1 (proj2 (handleCropComplete_replaces_selected
           {| imageFiles := [uploaded {| name := "a.png"; type := "image/png";
                                         size := 10 |}];
              selectedImageIndex := Some 3 |}
           {| blobType := "image/jpeg"; blobSize := 5 |})) 3);
    [reflexivity | cbn; lia].
Defined.

End GalleryFacts.

(* ================================================================= *)
(** * The region [handleCrop] reads *)

Section CropRegion.

Import Cropper CropInputs Invariants.
Local Open Scope Q_scope.

(** X18.  At 0 degrees (and at 180 degrees, where the first cropper does
    not look at the rotation) the rectangle read from the image is the
    crop rectangle scaled to image pixels, every coordinate rounded to
    the nearest whole pixel: for a crop rectangle inside the canvas it
    starts inside the image and ends at most one pixel beyond it.  At 0
    degrees the second cropper reads the same rectangle into a buffer of
    the same size. *)
Theorem handleCrop_region :
  forall st,
    0 < canvasWidth st -> 0 < canvasHeight st ->
    0 < imgWidth st -> 0 < imgHeight st ->
    inside (canvasWidth st) (canvasHeight st) (cropArea st) ->
    0 <= width (cropArea st) -> 0 <= height (cropArea st) ->
    Z.rem (rotation st) 180 = 0%Z ->
    let scaleX := imgWidth st / canvasWidth st in
    let scaleY := imgHeight st / canvasHeight st in
    let rect := cropArea st in
    let region := handleCrop st in
    x rect * scaleX - (1 # 2) < sx region <= x rect * scaleX + (1 # 2) /\
    y rect * scaleY - (1 # 2) < sy region <= y rect * scaleY + (1 # 2) /\
    width rect * scaleX - (1 # 2) < sWidth region
      <= width rect * scaleX + (1 # 2) /\
    height rect * scaleY - (1 # 2) < sHeight region
      <= height rect * scaleY + (1 # 2) /\
    0 <= sx region /\ 0 <= sy region /\
    0 <= sWidth region /\ 0 <= sHeight region /\
    sx region + sWidth region <= imgWidth st + 1 /\
    sy region + sHeight region <= imgHeight st + 1 /\
    (rotation st = 0%Z -> Cropper2.handleCrop st = Some region).
Proof.
  intros st Hcw Hch Hiw Hih (Hx & Hy & Hr & Hb) Hwide Hhigh Hrot. cbv zeta.
  assert (Hsx : 0 < imgWidth st / canvasWidth st)
    by (apply Qlt_shift_div_l; lra).
  assert (Hsy : 0 < imgHeight st / canvasHeight st)
    by (apply Qlt_shift_div_l; lra).
  assert (Hfx : canvasWidth st * (imgWidth st / canvasWidth st)
                == imgWidth st) by (field; lra).
  assert (Hfy : canvasHeight st * (imgHeight st / canvasHeight st)
                == imgHeight st) by (field; lra).
  set (scaleX := imgWidth st / canvasWidth st) in *.
  set (scaleY := imgHeight st / canvasHeight st) in *.
  assert (Hx0 : 0 <= x (cropArea st) * scaleX)
    by (apply Qmult_le_0_compat; lra).
  assert (Hy0 : 0 <= y (cropArea st) * scaleY)
    by (apply Qmult_le_0_compat; lra).
  assert (Hw0 : 0 <= width (cropArea st) * scaleX)
    by (apply Qmult_le_0_compat; lra).
  assert (Hh0 : 0 <= height (cropArea st) * scaleY)
    by (apply Qmult_le_0_compat; lra).
  assert (Hxr : x (cropArea st) * scaleX + width (cropArea st) * scaleX
                <= imgWidth st).
  { rewrite <- Hfx, <- Qmult_plus_distr_l.
    apply Qmult_le_compat_r; lra. }
  assert (Hyb : y (cropArea st) * scaleY + height (cropArea st) * scaleY
                <= imgHeight st).
  { rewrite <- Hfy, <- Qmult_plus_distr_l.
    apply Qmult_le_compat_r; lra. }
  pose proof (round_bounds (x (cropArea st) * scaleX)) as [Hbx1 Hbx2].
  pose proof (round_bounds (y (cropArea st) * scaleY)) as [Hby1 Hby2].
  pose proof (round_bounds (width (cropArea st) * scaleX)) as [Hbw1 Hbw2].
  pose proof (round_bounds (height (cropArea st) * scaleY)) as [Hbh1 Hbh2].
  pose proof (round_nonneg _ Hx0) as Hnx.
  pose proof (round_nonneg _ Hy0) as Hny.
  pose proof (round_nonneg _ Hw0) as Hnw.
  pose proof (round_nonneg _ Hh0) as Hnh.
  unfold handleCrop. fold scaleX scaleY. rewrite Hrot.
  cbn [Z.eqb negb sx sy sWidth sHeight].
  repeat split; try assumption; try lra.
  intros Hzero. unfold Cropper2.handleCrop. fold scaleX scaleY.
  rewrite Hzero. reflexivity.
Qed.

Lemma handleCrop_region_witness :
  sx (handleCrop (committed square200 0))
  + sWidth (handleCrop (committed square200 0))
  <= imgWidth (committed square200 0) + 1.
Proof.
  assert (Hin : inside (canvasWidth (committed square200 0))
                       (canvasHeight (committed square200 0))
                       (cropArea (committed square200 0)))
    by (vm_compute; repeat split; intros H; discriminate H).
  assert (Hwide : 0 <= width (cropArea (committed square200 0)))
    by (intros H; discriminate H).
  assert (Hhigh : 0 <= height (cropArea (committed square200 0)))
    by (intros H; discriminate H).
  destruct (handleCrop_region (committed square200 0)
              eq_refl eq_refl eq_refl eq_refl Hin Hwide Hhigh eq_refl)
    as (_ & _ & _ & _ & _ & _ & _ & _ & Hright & _).
  exact Hright.
Defined.

End CropRegion.
